(** * Firmware update over the Lab X mailbox (board/labx/revolver/firmware-update.c)

    A shallow embedding of the firmware-update control path of the boot
    loader: the update session ([startFirmwareUpdate], [sendDataPacket]),
    the executor ([doCrcCheck], [executeFirmwareUpdate]), the one-slot event
    latch ([set_eventQueueEnabled], [get_nextQueuedEvent]), the request
    dispatcher ([DoFirmwareUpdate]) and the boot decision sequence
    ([CheckFirmwareUpdate]).

    The C globals become one record that every function takes and returns.
    Calls that leave the file (image validation, the hush shell, the
    environment, the mailbox, the FSL port, delays) are recorded, in program
    order, in a trace kept in the same record; what they answer is given by
    the [Platform] class.  Console output ([printf]) is not modelled. *)

From Stdlib Require Import ZArith Lia Bool.
From stdpp Require Import base option list gmap strings.

Local Open Scope Z_scope.

(** ** Machine integers *)

(** [uint32_t], [u16] and [uint8_t] values are integers reduced modulo the
    width of the type. *)
Definition uint32 (x : Z) : Z := x mod 2 ^ 32.
Definition uint16 (x : Z) : Z := x mod 2 ^ 16.

Definition TRUE : Z := 1.
Definition FALSE : Z := 0.

(** C truth of an [int]. *)
Definition truthy (x : Z) : bool := negb (x =? 0).

Definition FINISH_FSL_BIT : Z := 0x80000000.
Definition GENERAL5_MAGIC : Z := 0x0ABCD.

Definition NULL_EVENT : Z := 0x00000000.
Definition FIRMWARE_UPDATE_EVENT : Z := 0x846C034D.

(** ** Types of the IDL (FirmwareUpdate.idl, AvbDefs.idl) *)

Inductive AvbDefs__ErrorCode :=
| e_EC_SUCCESS
| e_EC_UPDATE_ALREADY_IN_PROGRESS
| e_EC_UPDATE_NOT_IN_PROGRESS
| e_EC_NOT_EXECUTED
| e_EC_INVALID_SERVICE_CODE
| e_EC_CORRUPT_IMAGE.

Inductive FirmwareUpdate__CodeImageType :=
| e_CODE_IMAGE_BOOT
| e_CODE_IMAGE_MAIN.

Inductive FirmwareUpdate__FirmwareUpdateExecutionState :=
| UPDATE_SUCCESS
| UPDATE_CORRUPT_IMAGE
| UPDATE_NOT_EXECUTED
| UPDATE_NUM_STATES.

(** The enumerators count from zero, in the order of the IDL. *)
Definition execution_state_code
    (s : FirmwareUpdate__FirmwareUpdateExecutionState) : Z :=
  match s with
  | UPDATE_SUCCESS => 0
  | UPDATE_CORRUPT_IMAGE => 1
  | UPDATE_NOT_EXECUTED => 2
  | UPDATE_NUM_STATES => 3
  end.

#[global] Instance AvbDefs__ErrorCode_eq_dec : EqDecision AvbDefs__ErrorCode.
Proof. solve_decision. Defined.

#[global] Instance ExecutionState_eq_dec :
  EqDecision FirmwareUpdate__FirmwareUpdateExecutionState.
Proof. solve_decision. Defined.

(** [sequence<uint8_t>]: a byte array with the number of bytes in use.  A
    sequence is well formed when [m_size] is the length of [m_data]. *)
Record sequence_uint8 := mkSequence {
  m_data : list Z;
  m_size : Z
}.

Definition FirmwareUpdate__FwData := sequence_uint8.
Definition FirmwareUpdate__EventData := sequence_uint8.

Record FirmwareUpdate__GenericEvent := mkGenericEvent {
  eventCode : Z;
  data : FirmwareUpdate__EventData
}.

(** ** The firmware-update context *)

(** The flag is a [uint8_t], the two counters are [uint32_t], the two
    pointers are addresses; [cmd], a [string_t], is kept as the string it
    designates when it is stored. *)
Module Ctxt.
Record FirmwareUpdateCtxt_t := mk {
  bUpdateInProgress : Z;
  length : Z;
  bytesReceived : Z;
  fwImageBase : Z;
  fwImagePtr : Z;
  cmd : string
}.
End Ctxt.

Abbreviation FirmwareUpdateCtxt_t := Ctxt.FirmwareUpdateCtxt_t.

(** ** Message buffers *)

(** The class codes that the two switches of the file name; any other code
    is kept as the raw number. *)
Inductive ClassCode :=
| k_CC_FirmwareUpdate
| k_CC_AvbSystem
| k_CC_other (raw : Z).

#[global] Instance ClassCode_eq_dec : EqDecision ClassCode.
Proof. solve_decision. Defined.

(** Modelled from the spec: the operation a request frame decodes to.  The
    frame layout and [FirmwareUpdate__unmarshal] (FirmwareUpdate_unmarshal.h)
    are not in the sources; the spec says that the unmarshal collaborator
    decodes the operation by service and attribute code and invokes the
    matching session or attribute operation.  The operations are those of
    the IDL that firmware-update.c implements. *)
Inductive Operation :=
| Op_sendCommand (cmd : string)
| Op_startFirmwareUpdate (cmd : string) (len : Z)
| Op_sendDataPacket (d : FirmwareUpdate__FwData)
| Op_remainInBootloader
| Op_requestBootDelay
| Op_get_ExecutingImageType
| Op_get_eventQueueEnabled (code : Z)
| Op_set_eventQueueEnabled (code : Z) (enabled : bool)
| Op_get_nextQueuedEvent.

(** Modelled from the spec: a request frame, seen through its class code
    and the operation it carries (labx-mailbox.h is not in the sources). *)
Record RequestMessageBuffer_t := mkRequest {
  req_classCode : ClassCode;
  req_operation : Operation
}.

(** Modelled from the spec: what an operation writes after the response
    header. *)
Inductive Payload :=
| P_none
| P_imageType (v : FirmwareUpdate__CodeImageType)
| P_enabled (b : bool)
| P_event (e : FirmwareUpdate__GenericEvent).

(** Modelled from the spec: a response frame, seen through its length and
    status code fields and its payload. *)
Record ResponseMessageBuffer_t := mkResponse {
  resp_length : Z;
  resp_statusCode : AvbDefs__ErrorCode;
  resp_payload : Payload
}.

(** Modelled from the spec: the accessor macros of the message buffers
    (their header is not in the sources); each reads or writes the one
    field it names. *)
Definition getClassCode_req (r : RequestMessageBuffer_t) : ClassCode :=
  req_classCode r.

(** Modelled from the spec: the length field of a response. *)
Definition getLength_resp (r : ResponseMessageBuffer_t) : Z := resp_length r.

(** Modelled from the spec: the status code field of a response. *)
Definition getStatusCode_resp (r : ResponseMessageBuffer_t)
  : AvbDefs__ErrorCode := resp_statusCode r.

(** Modelled from the spec: writing the length field of a response. *)
Definition setLength_resp (r : ResponseMessageBuffer_t) (n : Z)
  : ResponseMessageBuffer_t :=
  mkResponse n (resp_statusCode r) (resp_payload r).

(** Modelled from the spec: writing the status code field of a response. *)
Definition setStatusCode_resp (r : ResponseMessageBuffer_t)
    (c : AvbDefs__ErrorCode) : ResponseMessageBuffer_t :=
  mkResponse (resp_length r) c (resp_payload r).

(** ** Calls that leave the file *)

Inductive ExternalCall :=
| X_image_check_type (hdr : Z) (type : Z)
| X_image_check_dcrc (hdr : Z)
| X_setenv (name value : string)
| X_parse_string_outer (cmd : string)
| X_SetupLabXMailbox
| X_WriteLabXMailbox (resp : ResponseMessageBuffer_t) (size : Z)
| X_TrigAsyncLabXMailbox
| X_putfslx (value : Z) (control : bool)
| X_getfslx
| X_udelay (usec : Z).

(** What a run of the hush shell leaves: its exit code, and the memory and
    the environment as the commands it has run have left them. *)
Record ShellOutcome := mkShellOutcome {
  exit_code : Z;
  memory_after : gmap Z Z;
  environment_after : gmap string string
}.

(** What the platform and the external collaborators answer.  The image
    routines read the staged bytes; the shell is given the command line,
    the memory and the environment, and may change both. *)
Class Platform := {
  XPAR_DDR2_CONTROL_MPMC_BASEADDR : Z;
  IH_TYPE_KERNEL : Z;
  image_check_type : gmap Z Z → Z → Z → bool;
  image_check_dcrc : gmap Z Z → Z → bool;
  parse_string_outer : string → gmap Z Z → gmap string string → ShellOutcome;
  getPayloadOffset_resp : ResponseMessageBuffer_t → Z;
  payload_size : Payload → Z
}.

(** ** The globals of firmware-update.c *)

(** [state] is the cell the C pointer [state] designates, [response] the
    static response buffer, [memory] the bytes by address, [environment]
    the store behind [setenv]. *)
Record Globals := mkGlobals {
  bootDelay : Z;
  firmwareUpdate : Z;
  executeUpdate : Z;
  queueEnabled : Z;
  eventValid : Z;
  fwUpdateCtxt : FirmwareUpdateCtxt_t;
  state : FirmwareUpdate__FirmwareUpdateExecutionState;
  response : ResponseMessageBuffer_t;
  memory : gmap Z Z;
  environment : gmap string string;
  trace : list ExternalCall
}.

Definition set_bootDelay (v : Z) (g : Globals) : Globals :=
  mkGlobals v (firmwareUpdate g) (executeUpdate g) (queueEnabled g)
    (eventValid g) (fwUpdateCtxt g) (state g) (response g) (memory g)
    (environment g) (trace g).

Definition set_firmwareUpdate (v : Z) (g : Globals) : Globals :=
  mkGlobals (bootDelay g) v (executeUpdate g) (queueEnabled g)
    (eventValid g) (fwUpdateCtxt g) (state g) (response g) (memory g)
    (environment g) (trace g).

Definition set_executeUpdate (v : Z) (g : Globals) : Globals :=
  mkGlobals (bootDelay g) (firmwareUpdate g) v (queueEnabled g)
    (eventValid g) (fwUpdateCtxt g) (state g) (response g) (memory g)
    (environment g) (trace g).

Definition set_queueEnabled (v : Z) (g : Globals) : Globals :=
  mkGlobals (bootDelay g) (firmwareUpdate g) (executeUpdate g) v
    (eventValid g) (fwUpdateCtxt g) (state g) (response g) (memory g)
    (environment g) (trace g).

Definition set_eventValid (v : Z) (g : Globals) : Globals :=
  mkGlobals (bootDelay g) (firmwareUpdate g) (executeUpdate g) (queueEnabled g)
    v (fwUpdateCtxt g) (state g) (response g) (memory g)
    (environment g) (trace g).

Definition set_fwUpdateCtxt (v : FirmwareUpdateCtxt_t) (g : Globals) : Globals :=
  mkGlobals (bootDelay g) (firmwareUpdate g) (executeUpdate g) (queueEnabled g)
    (eventValid g) v (state g) (response g) (memory g)
    (environment g) (trace g).

Definition set_state (v : FirmwareUpdate__FirmwareUpdateExecutionState)
    (g : Globals) : Globals :=
  mkGlobals (bootDelay g) (firmwareUpdate g) (executeUpdate g) (queueEnabled g)
    (eventValid g) (fwUpdateCtxt g) v (response g) (memory g)
    (environment g) (trace g).

Definition set_response (v : ResponseMessageBuffer_t) (g : Globals) : Globals :=
  mkGlobals (bootDelay g) (firmwareUpdate g) (executeUpdate g) (queueEnabled g)
    (eventValid g) (fwUpdateCtxt g) (state g) v (memory g)
    (environment g) (trace g).

Definition set_memory (v : gmap Z Z) (g : Globals) : Globals :=
  mkGlobals (bootDelay g) (firmwareUpdate g) (executeUpdate g) (queueEnabled g)
    (eventValid g) (fwUpdateCtxt g) (state g) (response g) v
    (environment g) (trace g).

Definition set_environment (v : gmap string string) (g : Globals) : Globals :=
  mkGlobals (bootDelay g) (firmwareUpdate g) (executeUpdate g) (queueEnabled g)
    (eventValid g) (fwUpdateCtxt g) (state g) (response g) (memory g)
    v (trace g).

(** An external call is appended to the trace. *)
Definition call (c : ExternalCall) (g : Globals) : Globals :=
  mkGlobals (bootDelay g) (firmwareUpdate g) (executeUpdate g) (queueEnabled g)
    (eventValid g) (fwUpdateCtxt g) (state g) (response g) (memory g)
    (environment g) (trace g ++ [c]).

(** [setenv(name, value)]. *)
Definition setenv (name value : string) (g : Globals) : Globals :=
  call (X_setenv name value)
    (set_environment (<[name := value]> (environment g)) g).

(** The globals after [parse_string_outer(cmd, ...)] has come back with
    [out]: the call is on the trace, the memory and the environment are as
    the shell has left them. *)
Definition shell_ran (cmd : string) (out : ShellOutcome) (g : Globals)
  : Globals :=
  set_environment (environment_after out)
    (set_memory (memory_after out) (call (X_parse_string_outer cmd) g)).

(** The globals as the C start-up code leaves them: every flag is [FALSE]
    and the context is zeroed. *)
Definition initial_globals : Globals :=
  mkGlobals FALSE FALSE FALSE FALSE FALSE
    (Ctxt.mk 0 0 0 0 0 EmptyString)
    UPDATE_SUCCESS
    (mkResponse 0 e_EC_SUCCESS P_none)
    ∅ ∅ [].

(** [memcpy(dst, src, n)] into the byte memory, [src] being the first [n]
    bytes of the source array; addresses are 32 bits wide. *)
Fixpoint store_bytes (m : gmap Z Z) (dst : Z) (src : list Z) : gmap Z Z :=
  match src with
  | [] => m
  | b :: bs => store_bytes (<[uint32 dst := b]> m) (dst + 1) bs
  end.

Definition memcpy (m : gmap Z Z) (dst : Z) (src : list Z) (n : Z) : gmap Z Z :=
  store_bytes m dst (take (Z.to_nat n) src).

(** How a C function that runs to its end, or never does, finishes. *)
Inductive Outcome :=
| Returns (rv : Z) (g : Globals)
| Hangs (g : Globals).

Section Program.
Context `{Platform}.

(** ** The update session *)

Definition get_ExecutingImageType (g : Globals)
  : AvbDefs__ErrorCode * FirmwareUpdate__CodeImageType * Globals :=
  (e_EC_SUCCESS, e_CODE_IMAGE_BOOT, g).

Definition startFirmwareUpdate (cmd : string) (length : Z) (g : Globals)
  : AvbDefs__ErrorCode * Globals :=
  let returnValue :=
    if truthy (Ctxt.bUpdateInProgress (fwUpdateCtxt g))
    then e_EC_UPDATE_ALREADY_IN_PROGRESS else e_EC_SUCCESS in
  let ctxt :=
    Ctxt.mk TRUE length 0
      XPAR_DDR2_CONTROL_MPMC_BASEADDR XPAR_DDR2_CONTROL_MPMC_BASEADDR cmd in
  (returnValue, set_fwUpdateCtxt ctxt g).

Definition sendDataPacket (data : FirmwareUpdate__FwData) (g : Globals)
  : AvbDefs__ErrorCode * Globals :=
  let c := fwUpdateCtxt g in
  if negb (truthy (Ctxt.bUpdateInProgress c)) then
    (e_EC_UPDATE_NOT_IN_PROGRESS, g)
  else
    let g1 :=
      set_memory
        (memcpy (memory g) (Ctxt.fwImagePtr c) (m_data data) (m_size data)) g in
    let received := uint32 (Ctxt.bytesReceived c + m_size data) in
    if received >=? Ctxt.length c then
      let g2 := set_executeUpdate TRUE g1 in
      (e_EC_SUCCESS,
       set_fwUpdateCtxt
         (Ctxt.mk FALSE (Ctxt.length c) received
            (Ctxt.fwImageBase c) (Ctxt.fwImagePtr c) (Ctxt.cmd c)) g2)
    else
      (e_EC_SUCCESS,
       set_fwUpdateCtxt
         (Ctxt.mk (Ctxt.bUpdateInProgress c) (Ctxt.length c) received
            (Ctxt.fwImageBase c) (uint32 (Ctxt.fwImagePtr c + m_size data))
            (Ctxt.cmd c)) g1).

(** ** The update executor *)

Definition doCrcCheck (g : Globals) : Z * Globals :=
  let hdr := Ctxt.fwImageBase (fwUpdateCtxt g) in
  let g1 := call (X_image_check_type hdr IH_TYPE_KERNEL) g in
  if image_check_type (memory g1) hdr IH_TYPE_KERNEL then
    let g2 := setenv "crcreturn" "0" g1 in
    let g3 := call (X_image_check_dcrc hdr) g2 in
    if negb (image_check_dcrc (memory g3) hdr) then
      (0, setenv "crcreturn" "1" g3)
    else
      (1, g3)
  else
    (0, g1).

Definition executeFirmwareUpdate (g : Globals) : Z * Globals :=
  let '(crc, g1) := doCrcCheck g in
  if crc =? FALSE then
    (1, set_state UPDATE_CORRUPT_IMAGE g1)
  else
    let command := Ctxt.cmd (fwUpdateCtxt g1) in
    let out := parse_string_outer command (memory g1) (environment g1) in
    let g2 := shell_ran command out g1 in
    if negb (exit_code out =? 0) then
      (1, set_state UPDATE_NOT_EXECUTED g2)
    else
      (0, set_state UPDATE_SUCCESS g2).

Definition sendCommand (cmd : string) (g : Globals)
  : AvbDefs__ErrorCode * Globals :=
  let out := parse_string_outer cmd (memory g) (environment g) in
  let g1 := shell_ran cmd out g in
  if negb (exit_code out =? 0) then
    (e_EC_NOT_EXECUTED, g1)
  else
    (e_EC_SUCCESS, g1).

Definition remainInBootloader (g : Globals) : AvbDefs__ErrorCode * Globals :=
  (e_EC_SUCCESS, set_firmwareUpdate TRUE g).

Definition requestBootDelay (g : Globals) : AvbDefs__ErrorCode * Globals :=
  (e_EC_SUCCESS, set_bootDelay TRUE g).

(** ** The event latch *)

(** [*enabled = queueEnabled]: the [int] flag read as a [bool]. *)
Definition get_eventQueueEnabled (eventCode : Z) (g : Globals)
  : AvbDefs__ErrorCode * bool * Globals :=
  (e_EC_SUCCESS, truthy (queueEnabled g), g).

(** [queueEnabled = enabled]: the [bool] stored as 0 or 1. *)
Definition set_eventQueueEnabled (eventCode : Z) (enabled : bool) (g : Globals)
  : AvbDefs__ErrorCode * Globals :=
  (e_EC_SUCCESS, set_queueEnabled (if enabled then 1 else 0) g).

(** [event] is the structure the caller passes by pointer; the function
    returns it as it leaves it. *)
Definition get_nextQueuedEvent (event : FirmwareUpdate__GenericEvent)
    (g : Globals)
  : AvbDefs__ErrorCode * FirmwareUpdate__GenericEvent * Globals :=
  if truthy (eventValid g) then
    let bytes := execution_state_code (state g) :: tail (m_data (data event)) in
    (e_EC_SUCCESS,
     mkGenericEvent FIRMWARE_UPDATE_EVENT (mkSequence bytes 0x01),
     set_eventValid FALSE g)
  else
    (e_EC_SUCCESS, mkGenericEvent NULL_EVENT (data event), g).

(** Arming the latch is the assignment [eventValid = TRUE] of line 288. *)
Definition arm (g : Globals) : Globals := set_eventValid TRUE g.

(** ** The unmarshal collaborator *)

(** Modelled from the spec: the response an operation leaves in the buffer,
    its status code, its payload, and the length up to the end of the
    payload. *)
Definition fill_response (status : AvbDefs__ErrorCode) (p : Payload)
    (g : Globals) : Globals :=
  set_response
    (mkResponse (getPayloadOffset_resp (response g) + payload_size p) status p)
    g.

(** Modelled from the spec: the event structure handed to
    [get_nextQueuedEvent]. *)
Definition blank_event : FirmwareUpdate__GenericEvent :=
  mkGenericEvent 0 (mkSequence [] 0).

(** Modelled from the spec: [FirmwareUpdate__unmarshal] (generated code,
    FirmwareUpdate_unmarshal.h, not in the sources).  It decodes the
    operation, invokes the matching session or attribute operation of this
    file and fills the response with what that operation returns. *)
Definition FirmwareUpdate__unmarshal (request : RequestMessageBuffer_t)
    (g : Globals) : Globals :=
  match req_operation request with
  | Op_sendCommand cmd =>
      let '(rc, g1) := sendCommand cmd g in fill_response rc P_none g1
  | Op_startFirmwareUpdate cmd len =>
      let '(rc, g1) := startFirmwareUpdate cmd len g in
      fill_response rc P_none g1
  | Op_sendDataPacket d =>
      let '(rc, g1) := sendDataPacket d g in fill_response rc P_none g1
  | Op_remainInBootloader =>
      let '(rc, g1) := remainInBootloader g in fill_response rc P_none g1
  | Op_requestBootDelay =>
      let '(rc, g1) := requestBootDelay g in fill_response rc P_none g1
  | Op_get_ExecutingImageType =>
      let '(rc, v, g1) := get_ExecutingImageType g in
      fill_response rc (P_imageType v) g1
  | Op_get_eventQueueEnabled code =>
      let '(rc, b, g1) := get_eventQueueEnabled code g in
      fill_response rc (P_enabled b) g1
  | Op_set_eventQueueEnabled code enabled =>
      let '(rc, g1) := set_eventQueueEnabled code enabled g in
      fill_response rc P_none g1
  | Op_get_nextQueuedEvent =>
      let '(rc, e, g1) := get_nextQueuedEvent blank_event g in
      fill_response rc (P_event e) g1
  end.

(** ** The request dispatcher *)

(** The [default:] branch of both switches: report a malformed request. *)
Definition report_malformed (g : Globals) : Globals :=
  let r1 := setStatusCode_resp (response g) e_EC_INVALID_SERVICE_CODE in
  set_response (setLength_resp r1 (getPayloadOffset_resp r1)) g.

(** Write the response out to the mailbox (lines 270-272 and 382-384). *)
Definition write_response (g : Globals) : Globals :=
  let respSize := getLength_resp (response g) in
  let g1 := set_response (setLength_resp (response g) respSize) g in
  call (X_WriteLabXMailbox (response g1) respSize) g1.

(** The switch of [DoFirmwareUpdate] (lines 243-266). *)
Definition DoFirmwareUpdate_switch (request : RequestMessageBuffer_t)
    (g : Globals) : Globals :=
  match getClassCode_req request with
  | k_CC_FirmwareUpdate | k_CC_AvbSystem => FirmwareUpdate__unmarshal request g
  | k_CC_other _ => report_malformed g
  end.

(** Lines 284-291: run a transfer that has just completed. *)
Definition DoFirmwareUpdate_execute (g : Globals) : Globals :=
  if truthy (executeUpdate g) then
    let '(_, g1) := executeFirmwareUpdate g in
    let g2 := set_executeUpdate FALSE g1 in
    if truthy (queueEnabled g2) then
      call X_TrigAsyncLabXMailbox (arm g2)
    else g2
  else g.

(** One turn of the [while] loop of [DoFirmwareUpdate], for the request the
    mailbox has delivered. *)
Definition DoFirmwareUpdate_iteration (request : RequestMessageBuffer_t)
    (g : Globals) : Globals :=
  DoFirmwareUpdate_execute (write_response (DoFirmwareUpdate_switch request g)).

(** [inbox] lists what the successive calls of [ReadLabXMailbox] find: a
    request, or nothing ([None], the call returns 0).  A blocking read of an
    exhausted inbox never returns. *)
Fixpoint DoFirmwareUpdate (inbox : list (option RequestMessageBuffer_t))
    (g : Globals) : Outcome :=
  match inbox with
  | [] => Hangs g
  | None :: _ => Returns 1 g
  | Some request :: rest =>
      DoFirmwareUpdate rest (DoFirmwareUpdate_iteration request g)
  end.

(** ** The boot decision sequence *)

(** The switch of [CheckFirmwareUpdate] (lines 370-380). *)
Definition CheckFirmwareUpdate_switch (request : RequestMessageBuffer_t)
    (g : Globals) : Globals :=
  match getClassCode_req request with
  | k_CC_FirmwareUpdate => FirmwareUpdate__unmarshal request g
  | _ => report_malformed g
  end.

(** What the polling window does with a request it has read
    (lines 370-384). *)
Definition CheckFirmwareUpdate_request (request : RequestMessageBuffer_t)
    (g : Globals) : Globals :=
  write_response (CheckFirmwareUpdate_switch request g).

(** The [for] loop of lines 356-403 with [attempts] turns left; it returns
    the part of the inbox it has not read. *)
Fixpoint CheckFirmwareUpdate_poll (attempts : nat)
    (inbox : list (option RequestMessageBuffer_t)) (g : Globals)
  : list (option RequestMessageBuffer_t) * Globals :=
  match attempts with
  | O => (inbox, g)
  | S n =>
      match inbox with
      | Some request :: rest =>
          let g1 := CheckFirmwareUpdate_request request g in
          if decide (getStatusCode_resp (response g1) = e_EC_SUCCESS)
          then (rest, g1)
          else CheckFirmwareUpdate_poll n rest g1
      | None :: rest => CheckFirmwareUpdate_poll n rest (call (X_udelay 250000) g)
      | [] => CheckFirmwareUpdate_poll n [] (call (X_udelay 250000) g)
      end
  end.

(** Lines 319-352: enable the mailbox and ask the ICAP for GENERAL5. *)
Definition CheckFirmwareUpdate_probe (g : Globals) : Globals :=
  foldl (λ g c, call c g) g
    [ X_SetupLabXMailbox;
      X_putfslx 0x0FFFF true;
      X_udelay 1000;
      X_putfslx 0x0FFFF false;
      X_putfslx 0x0FFFF false;
      X_putfslx 0x0AA99 false;
      X_putfslx 0x05566 false;
      X_putfslx 0x02AE1 false;
      X_putfslx 0x02000 false;
      X_putfslx 0x02000 false;
      X_putfslx FINISH_FSL_BIT false;
      X_udelay 1000;
      X_getfslx ].

(** Lines 405-416: [(doUpdate, returnValue)]. *)
Definition CheckFirmwareUpdate_decide (readValue : Z) (g : Globals) : Z * Z :=
  if readValue =? GENERAL5_MAGIC then (1, 0)
  else if truthy (firmwareUpdate g) then (1, 0)
  else if truthy (bootDelay g) then (0, 1)
  else (0, 0).

(** [fsl_word] is the word [getfslx] reads; [readValue] is a [u16]. *)
Definition CheckFirmwareUpdate (fsl_word : Z)
    (inbox : list (option RequestMessageBuffer_t)) (g : Globals) : Outcome :=
  let g1 := CheckFirmwareUpdate_probe g in
  let readValue := uint16 fsl_word in
  let '(inbox1, g2) := CheckFirmwareUpdate_poll 4 inbox g1 in
  let '(doUpdate, returnValue) := CheckFirmwareUpdate_decide readValue g2 in
  if truthy doUpdate then
    match DoFirmwareUpdate inbox1 g2 with
    | Returns _ g3 => Hangs g3
    | Hangs g3 => Hangs g3
    end
  else
    Returns returnValue g2.

End Program.

(** ** A bench platform

    A stand-in for the collaborators, used to run the program on concrete
    inputs: the image type is the byte at offset 30 of the header, the data
    checksum is taken to be good when the byte at offset 24 is zero, the
    shell fails on the command [false] only and changes nothing, the
    response header is four bytes long. *)
Definition bench : Platform := {|
  XPAR_DDR2_CONTROL_MPMC_BASEADDR := 0x90000000;
  IH_TYPE_KERNEL := 2;
  image_check_type := λ m hdr type, bool_decide (m !! uint32 (hdr + 30) = Some type);
  image_check_dcrc := λ m hdr, bool_decide (m !! uint32 (hdr + 24) = Some 0);
  parse_string_outer := λ cmd m e,
    mkShellOutcome (if decide (cmd = "false") then 1 else 0) m e;
  getPayloadOffset_resp := λ _, 4;
  payload_size := λ p,
    match p with
    | P_none => 0
    | P_imageType _ => 1
    | P_enabled _ => 1
    | P_event e => 8 + m_size (data e)
    end
|}.

(** ** Sequences of operations *)

Section Runs.
Context `{Platform}.

(** The two operations of the update session. *)
Inductive SessionOp :=
| start (command : string) (length : Z)
| acceptPacket (bytes : FirmwareUpdate__FwData).

Definition run_op (op : SessionOp) (g : Globals) : AvbDefs__ErrorCode * Globals :=
  match op with
  | start command length => startFirmwareUpdate command length g
  | acceptPacket bytes => sendDataPacket bytes g
  end.

Definition run_ops (ops : list SessionOp) (g : Globals) : Globals :=
  foldl (λ g op, (run_op op g).2) g ops.

(** Polling the latch once for each event structure of [events]. *)
Fixpoint poll_all (events : list FirmwareUpdate__GenericEvent) (g : Globals)
  : list FirmwareUpdate__GenericEvent * Globals :=
  match events with
  | [] => ([], g)
  | e :: rest =>
      let '(_, e', g1) := get_nextQueuedEvent e g in
      let '(out, g2) := poll_all rest g1 in
      (e' :: out, g2)
  end.

End Runs.

(** ** What the properties speak of *)

Section Observations.
Context `{Platform}.

(** A session is in progress when the flag of the context is set. *)
Definition in_progress (g : Globals) : bool :=
  truthy (Ctxt.bUpdateInProgress (fwUpdateCtxt g)).

Definition is_uint32 (x : Z) : Prop := 0 <= x < 2 ^ 32.

(** The arguments of the operations are [uint32_t] values. *)
Definition wf_op (op : SessionOp) : Prop :=
  match op with
  | start _ length => is_uint32 length
  | acceptPacket bytes => is_uint32 (m_size bytes)
  end.

(** The invariant as the data model words it, the pointer difference and
    the comparison taken as C takes them, modulo 2^32. *)
Definition session_invariant (g : Globals) : Prop :=
  let c := fwUpdateCtxt g in
  Ctxt.bytesReceived c <= Ctxt.length c
  ∧ uint32 (Ctxt.fwImagePtr c - Ctxt.fwImageBase c) = Ctxt.bytesReceived c.

(** The spec's own scenario: a session of four bytes and the one packet
    that fills it. *)
Definition four_byte_session : list SessionOp :=
  [ start "run commit" 4;
    acceptPacket (mkSequence [0xDE; 0xAD; 0xBE; 0xEF] 4) ].

(** What a poll hands back when nothing is pending: the null event code,
    the data of the caller's structure untouched. *)
Definition no_event (e : FirmwareUpdate__GenericEvent)
  : FirmwareUpdate__GenericEvent :=
  mkGenericEvent NULL_EVENT (data e).

(** What a poll hands back when an event is pending: the firmware-update
    event code and one byte, the execution state. *)
Definition delivered_event (g : Globals) (e : FirmwareUpdate__GenericEvent)
  : FirmwareUpdate__GenericEvent :=
  mkGenericEvent FIRMWARE_UPDATE_EVENT
    (mkSequence (execution_state_code (state g) :: tail (m_data (data e))) 1).

(** The commands handed to the shell within a stretch of trace. *)
Fixpoint shell_calls (t : list ExternalCall) : list string :=
  match t with
  | [] => []
  | X_parse_string_outer cmd :: rest => cmd :: shell_calls rest
  | _ :: rest => shell_calls rest
  end.

(** The runs of the executor within a stretch of trace: each run asks for
    the image type once, and nothing else does. *)
Fixpoint executions (t : list ExternalCall) : nat :=
  match t with
  | [] => O
  | X_image_check_type _ _ :: rest => S (executions rest)
  | _ :: rest => executions rest
  end.

(** The asynchronous notifications raised within a stretch of trace. *)
Fixpoint notifications (t : list ExternalCall) : nat :=
  match t with
  | [] => O
  | X_TrigAsyncLabXMailbox :: rest => S (notifications rest)
  | _ :: rest => notifications rest
  end.

(** The status codes of the responses written to the mailbox within a
    stretch of trace. *)
Fixpoint statuses (t : list ExternalCall) : list AvbDefs__ErrorCode :=
  match t with
  | [] => []
  | X_WriteLabXMailbox resp _ :: rest => getStatusCode_resp resp :: statuses rest
  | _ :: rest => statuses rest
  end.

(** The terminal state the post-command yields when run from [g]. *)
Definition post_command (g : Globals)
  : FirmwareUpdate__FirmwareUpdateExecutionState :=
  let command := Ctxt.cmd (fwUpdateCtxt g) in
  if negb (exit_code (parse_string_outer command (memory g) (environment g))
           =? 0)
  then UPDATE_NOT_EXECUTED else UPDATE_SUCCESS.

(** The executor as the design text has it: an unrecognized image type
    passes, a recognized one is checked, a bad checksum gives the corrupt
    state, anything else goes on to the post-command. *)
Definition execute_reference (g : Globals)
  : FirmwareUpdate__FirmwareUpdateExecutionState :=
  let hdr := Ctxt.fwImageBase (fwUpdateCtxt g) in
  if negb (image_check_type (memory g) hdr IH_TYPE_KERNEL) then
    post_command g
  else if negb (image_check_dcrc (memory g) hdr) then
    UPDATE_CORRUPT_IMAGE
  else
    post_command g.

Definition start_request (cmd : string) (length : Z) : RequestMessageBuffer_t :=
  mkRequest k_CC_FirmwareUpdate (Op_startFirmwareUpdate cmd length).

Definition data_request (d : FirmwareUpdate__FwData) : RequestMessageBuffer_t :=
  mkRequest k_CC_FirmwareUpdate (Op_sendDataPacket d).

(** The sizes of a list of packets, summed. *)
Definition total_size (ds : list FirmwareUpdate__FwData) : Z :=
  foldr (λ d n, m_size d + n) 0 ds.

(** The turns of the dispatcher loop for the requests of [requests], in
    order. *)
Definition run_requests (requests : list RequestMessageBuffer_t) (g : Globals)
  : Globals :=
  foldl (λ g request, DoFirmwareUpdate_iteration request g) g requests.

(** A remain-in-bootloader request, as the polling window recognizes it. *)
Definition is_remainInBootloader (request : RequestMessageBuffer_t) : bool :=
  match getClassCode_req request, req_operation request with
  | k_CC_FirmwareUpdate, Op_remainInBootloader => true
  | _, _ => false
  end.

(** A boot-delay request, as the polling window recognizes it. *)
Definition is_requestBootDelay (request : RequestMessageBuffer_t) : bool :=
  match getClassCode_req request, req_operation request with
  | k_CC_FirmwareUpdate, Op_requestBootDelay => true
  | _, _ => false
  end.

(** What [CheckFirmwareUpdate] returns, if it returns. *)
Definition returned (o : Outcome) : option Z :=
  match o with
  | Returns rv _ => Some rv
  | Hangs _ => None
  end.

Definition outcome_globals (o : Outcome) : Globals :=
  match o with
  | Returns _ g => g
  | Hangs g => g
  end.

(** The requests the polling window reads: those of the first [attempts]
    reads, up to the first one answered with success. *)
Fixpoint CheckFirmwareUpdate_reads (attempts : nat)
    (inbox : list (option RequestMessageBuffer_t)) (g : Globals)
  : list RequestMessageBuffer_t :=
  match attempts with
  | O => []
  | S n =>
      match inbox with
      | Some request :: rest =>
          let g1 := CheckFirmwareUpdate_request request g in
          request ::
            (if decide (getStatusCode_resp (response g1) = e_EC_SUCCESS)
             then []
             else CheckFirmwareUpdate_reads n rest g1)
      | None :: rest =>
          CheckFirmwareUpdate_reads n rest (call (X_udelay 250000) g)
      | [] => CheckFirmwareUpdate_reads n [] (call (X_udelay 250000) g)
      end
  end.

End Observations.

(** ** Further observations on the firmware update *)

(** The operations that belong to the update session proper. *)
Definition is_session_operation (o : Operation) : bool :=
  match o with
  | Op_startFirmwareUpdate _ _ | Op_sendDataPacket _ => true
  | _ => false
  end.

(** A packet is well formed when its size is the number of its bytes. *)
Definition wf_packet (d : FirmwareUpdate__FwData) : Prop :=
  m_size d = Z.of_nat (length (m_data d)).

(** The bytes of a list of packets, end to end. *)
Definition packet_bytes (ds : list FirmwareUpdate__FwData) : list Z :=
  concat (m_data <$> ds).

(** The quarter-second sleeps of the polling window within a stretch of
    trace. *)
Fixpoint sleeps (t : list ExternalCall) : nat :=
  match t with
  | [] => O
  | X_udelay 250000 :: rest => S (sleeps rest)
  | _ :: rest => sleeps rest
  end.

(** ** The reset command (board/avid/garcia/cmd_reset.c) *)

Definition RUNTIME_FPGA_BASE : Z := 0x00000000.
Definition BOOT_FPGA_BASE : Z := 0x00000000.

(** The four address words of the command sequence, as the source computes
    them from a base address. *)
Definition multiboot_low (base : Z) : Z := Z.land (Z.shiftr base 1) 0x0FFFF.
Definition multiboot_high (base : Z) : Z := Z.land (Z.shiftr base 17) 0x0FF.
Definition fallback_low (base : Z) : Z := Z.land base 0x0FFFF.
Definition fallback_high (base : Z) : Z := Z.land (Z.shiftr base 16) 0x0FF.

(** The words [do_reset] puts on the FSL port, in order, for the two base
    addresses. *)
Definition do_reset_words (runtime_base boot_base : Z) : list Z :=
  [ 0x0FFFF; 0x0FFFF; 0x0AA99; 0x05566;
    0x03261; multiboot_low runtime_base;
    0x03281; multiboot_high runtime_base;
    0x032A1; fallback_low boot_base;
    0x032C1; fallback_high boot_base;
    0x030A1; 0x0000E; 0x02000;
    FINISH_FSL_BIT ].

(** [do_reset]: the words are written and the function spins. *)
Definition do_reset (g : Globals) : Outcome :=
  Hangs
    (foldl (λ g w, call (X_putfslx w false) g) g
       (do_reset_words RUNTIME_FPGA_BASE BOOT_FPGA_BASE)).

(** ** The MTD bridge (Flash of another processor behind a bridge
    peripheral) *)

Definition MTDBRIDGE_IRQ_REG_ADDR : Z := 0x010.
Definition MTDBRIDGE_COMMAND_REG_ADDR : Z := 0x018.
Definition MTDBRIDGE_STATUS_REG_ADDR : Z := 0x01C.
Definition MTDBRIDGE_ADDRESS_REG_ADDR : Z := 0x020.
Definition MTDBRIDGE_LENGTH_REG_ADDR : Z := 0x024.
Definition MTDBRIDGE_MAILBOX_RAM_ADDR : Z := 0x800.

Definition MTDBRIDGE_IRQ_COMPLETE_BIT : Z := Z.shiftl 1 0.
Definition MTDBRIDGE_OPCODE_WRITE : Z := 0x02.
Definition MTDBRIDGE_OPCODE_READ : Z := 0x03.
Definition MTDBRIDGE_OPCODE_SE : Z := 0xD8.

Definition MTDBRIDGE_SR_OIP : Z := 1.
Definition MTDBRIDGE_SR_NORESP : Z := 0x04.
Definition MTDBRIDGE_BUFFER_SIZE : Z := 2048.

Definition MTDBRIDGE_TIMEOUT_MS : Z := 500.
Definition MTDBRIDGE_TIMEOUT_SLICE : Z := 1.
Definition MTDBRIDGE_TIMEOUT_WAITS : Z :=
  (MTDBRIDGE_TIMEOUT_MS + MTDBRIDGE_TIMEOUT_SLICE - 1) / MTDBRIDGE_TIMEOUT_SLICE.

(** An [unsigned long] register value taken as an [int]. *)
Definition int32 (x : Z) : Z := (x + 2 ^ 31) mod 2 ^ 32 - 2 ^ 31.

(** What the processor does to the peripheral: register writes, register
    reads and delays, by register offset. *)
Inductive BridgeAccess :=
| B_write (offset data : Z)
| B_read (offset : Z)
| B_mdelay (msec : Z).

(** The register writes to [offset] within a history, in order. *)
Fixpoint writes_to (offset : Z) (h : list BridgeAccess) : list Z :=
  match h with
  | [] => []
  | B_write o d :: rest =>
      if o =? offset then d :: writes_to offset rest else writes_to offset rest
  | _ :: rest => writes_to offset rest
  end.

(** The number of reads of [offset] within a history. *)
Fixpoint reads_of (offset : Z) (h : list BridgeAccess) : nat :=
  match h with
  | [] => O
  | B_read o :: rest =>
      if o =? offset then S (reads_of offset rest) else reads_of offset rest
  | _ :: rest => reads_of offset rest
  end.

(** The milliseconds slept within a history. *)
Fixpoint delay_of (h : list BridgeAccess) : Z :=
  match h with
  | [] => 0
  | B_mdelay ms :: rest => ms + delay_of rest
  | _ :: rest => delay_of rest
  end.

(** The words written to the mailbox RAM within a history, in order. *)
Fixpoint mailbox_words (h : list BridgeAccess) : list Z :=
  match h with
  | [] => []
  | B_write o d :: rest =>
      if MTDBRIDGE_MAILBOX_RAM_ADDR <=? o then d :: mailbox_words rest
      else mailbox_words rest
  | _ :: rest => mailbox_words rest
  end.

(** The chunks a transfer of [len] bytes is cut into: full buffers, then
    what is left. *)
Definition chunk_lengths (len : Z) : list Z :=
  replicate (Z.to_nat (len / MTDBRIDGE_BUFFER_SIZE)) MTDBRIDGE_BUFFER_SIZE
  ++ (if len mod MTDBRIDGE_BUFFER_SIZE =? 0 then []
      else [len mod MTDBRIDGE_BUFFER_SIZE]).

(** The Flash offsets of [n] successive chunks from [offset]. *)
Definition chunk_offsets (offset : Z) (n : nat) : list Z :=
  (λ i : nat, uint32 (offset + MTDBRIDGE_BUFFER_SIZE * Z.of_nat i)) <$> seq 0 n.

(** The number of 32-bit words that cover [len] bytes. *)
Definition words_for (len : Z) : nat := Z.to_nat ((len + 3) / 4).

Section Bridge.

(** What a register read returns, given everything done to the peripheral
    so far and the offset of the register. *)
Variable device : list BridgeAccess → Z → Z.

Definition MTDBRIDGE_WRITE (offset data : Z) (h : list BridgeAccess)
  : list BridgeAccess :=
  h ++ [B_write offset data].

Definition MTDBRIDGE_READ (offset : Z) (h : list BridgeAccess)
  : Z * list BridgeAccess :=
  (uint32 (device h offset), h ++ [B_read offset]).

Definition mdelay (msec : Z) (h : list BridgeAccess) : list BridgeAccess :=
  h ++ [B_mdelay msec].

(** The first loop of [mtd_bridge_cmd] (lines 110-116), [timeout] being the
    waits left: poll the IRQ register until the operation is complete. *)
Fixpoint mtd_bridge_cmd_poll (timeout : nat) (h : list BridgeAccess)
  : Z * list BridgeAccess :=
  let '(irq, h1) := MTDBRIDGE_READ MTDBRIDGE_IRQ_REG_ADDR h in
  if Z.land irq MTDBRIDGE_IRQ_COMPLETE_BIT =? 0 then
    match timeout with
    | O => (MTDBRIDGE_SR_NORESP, h1)
    | S t => mtd_bridge_cmd_poll t (mdelay MTDBRIDGE_TIMEOUT_SLICE h1)
    end
  else (0, h1).

(** The second loop of [mtd_bridge_cmd] (lines 124-131): wait while the
    status says that the operation is in progress. *)
Fixpoint mtd_bridge_cmd_busy (timeout : nat) (rc : Z) (h : list BridgeAccess)
  : Z * list BridgeAccess :=
  if negb (Z.land rc MTDBRIDGE_SR_OIP =? 0) then
    match timeout with
    | O => (rc, h)
    | S t =>
        let h1 := mdelay MTDBRIDGE_TIMEOUT_SLICE h in
        let '(status, h2) := MTDBRIDGE_READ MTDBRIDGE_STATUS_REG_ADDR h1 in
        mtd_bridge_cmd_busy t (int32 status) h2
    end
  else (rc, h).

Definition mtd_bridge_cmd (offset len opcode : Z) (h : list BridgeAccess)
  : Z * list BridgeAccess :=
  let h1 := MTDBRIDGE_WRITE MTDBRIDGE_IRQ_REG_ADDR MTDBRIDGE_IRQ_COMPLETE_BIT h in
  let h2 := MTDBRIDGE_WRITE MTDBRIDGE_ADDRESS_REG_ADDR offset h1 in
  let h3 := MTDBRIDGE_WRITE MTDBRIDGE_LENGTH_REG_ADDR len h2 in
  let h4 := MTDBRIDGE_WRITE MTDBRIDGE_COMMAND_REG_ADDR opcode h3 in
  let '(rc, h5) := mtd_bridge_cmd_poll (Z.to_nat MTDBRIDGE_TIMEOUT_WAITS) h4 in
  let '(rc1, h6) :=
    if rc =? 0 then
      let '(status, h') := MTDBRIDGE_READ MTDBRIDGE_STATUS_REG_ADDR h5 in
      (int32 status, h')
    else (rc, h5) in
  mtd_bridge_cmd_busy (Z.to_nat MTDBRIDGE_TIMEOUT_WAITS) rc1 h6.

(** The [for] loop of [mtd_bridge_write] (lines 162-165): [n] words of
    [buf], from word [word_ptr] on, go to the mailbox RAM.  [buf] gives the
    memory at the source pointer, word by word. *)
Fixpoint copy_to_mailbox (n : nat) (buf_offset : Z) (buf : nat → Z)
    (word_ptr : nat) (h : list BridgeAccess) : list BridgeAccess :=
  match n with
  | O => h
  | S n' =>
      copy_to_mailbox n' (buf_offset + 4) buf (S word_ptr)
        (MTDBRIDGE_WRITE buf_offset (buf word_ptr) h)
  end.

(** The [while] loop of [mtd_bridge_write] (lines 150-172); [None] when
    [fuel] turns are not enough. *)
Fixpoint mtd_bridge_write_loop (fuel : nat) (rc offset len_rem : Z)
    (buf : nat → Z) (word_ptr : nat) (h : list BridgeAccess)
  : option (Z * list BridgeAccess) :=
  if (rc =? 0) && (0 <? len_rem) then
    match fuel with
    | O => None
    | S fuel' =>
        let next_len :=
          if len_rem >? MTDBRIDGE_BUFFER_SIZE then MTDBRIDGE_BUFFER_SIZE
          else len_rem in
        let len_rem' := len_rem - next_len in
        let word_len := Z.to_nat (Z.shiftr (next_len + 3) 2) in
        let h1 :=
          copy_to_mailbox word_len MTDBRIDGE_MAILBOX_RAM_ADDR buf word_ptr h in
        let '(rc', h2) := mtd_bridge_cmd offset next_len MTDBRIDGE_OPCODE_WRITE h1 in
        mtd_bridge_write_loop fuel' rc' (uint32 (offset + next_len)) len_rem'
          buf (word_ptr + word_len)%nat h2
    end
  else Some (rc, h).

(** [mtd_bridge_write(flash, offset, len, buf)]; one turn takes at least
    one byte, so [len] turns always do. *)
Definition mtd_bridge_write (offset len : Z) (buf : nat → Z)
    (h : list BridgeAccess) : option (Z * list BridgeAccess) :=
  mtd_bridge_write_loop (Z.to_nat len) 0 offset len buf O h.

(** The [for] loop of [mtd_bridge_read] (lines 204-207): [n] words of the
    mailbox RAM go to the destination, from word [word_ptr] on.  [dst] holds
    the words stored at the destination pointer, by index. *)
Fixpoint copy_from_mailbox (n : nat) (buf_offset : Z) (word_ptr : nat)
    (dst : gmap nat Z) (h : list BridgeAccess)
  : gmap nat Z * list BridgeAccess :=
  match n with
  | O => (dst, h)
  | S n' =>
      let '(w, h1) := MTDBRIDGE_READ buf_offset h in
      copy_from_mailbox n' (buf_offset + 4) (S word_ptr)
        (<[word_ptr := w]> dst) h1
  end.

(** The [while] loop of [mtd_bridge_read] (lines 188-212). *)
Fixpoint mtd_bridge_read_loop (fuel : nat) (rc offset len_rem : Z)
    (word_ptr : nat) (dst : gmap nat Z) (h : list BridgeAccess)
  : option (Z * gmap nat Z * list BridgeAccess) :=
  if (rc =? 0) && (0 <? len_rem) then
    match fuel with
    | O => None
    | S fuel' =>
        let next_len :=
          if len_rem >? MTDBRIDGE_BUFFER_SIZE then MTDBRIDGE_BUFFER_SIZE
          else len_rem in
        let len_rem' := len_rem - next_len in
        let '(rc', h1) := mtd_bridge_cmd offset next_len MTDBRIDGE_OPCODE_READ h in
        let word_len := Z.to_nat (Z.shiftr (next_len + 3) 2) in
        let '(dst', word_ptr', h2) :=
          if rc' =? 0 then
            let '(d, h') :=
              copy_from_mailbox word_len MTDBRIDGE_MAILBOX_RAM_ADDR word_ptr dst h1 in
            (d, (word_ptr + word_len)%nat, h')
          else (dst, word_ptr, h1) in
        mtd_bridge_read_loop fuel' rc' (uint32 (offset + next_len)) len_rem'
          word_ptr' dst' h2
    end
  else Some (rc, dst, h).

Definition mtd_bridge_read (offset len : Z) (dst : gmap nat Z)
    (h : list BridgeAccess) : option (Z * gmap nat Z * list BridgeAccess) :=
  mtd_bridge_read_loop (Z.to_nat len) 0 offset len O dst h.

Definition mtd_bridge_erase (offset len : Z) (h : list BridgeAccess)
  : Z * list BridgeAccess :=
  mtd_bridge_cmd offset len MTDBRIDGE_OPCODE_SE h.

(** The peripheral never raises the completion bit. *)
Definition never_completes : Prop :=
  ∀ h, Z.land (uint32 (device h MTDBRIDGE_IRQ_REG_ADDR))
         MTDBRIDGE_IRQ_COMPLETE_BIT = 0.

(** The peripheral has completed whenever it is asked, with the same
    status word. *)
Definition answers_with (status : Z) : Prop :=
  (∀ h, Z.land (uint32 (device h MTDBRIDGE_IRQ_REG_ADDR))
          MTDBRIDGE_IRQ_COMPLETE_BIT ≠ 0)
  ∧ (∀ h, uint32 (device h MTDBRIDGE_STATUS_REG_ADDR) = status).

End Bridge.

(** Peripherals to run the driver on: one that never answers, one that
    completes every command with status 0 and holds the word [7 * o] at
    mailbox offset [o], one that completes every command with the read-only
    status. *)
Definition dead_bridge : list BridgeAccess → Z → Z := λ _ _, 0.

Definition ideal_bridge : list BridgeAccess → Z → Z :=
  λ _ offset,
    if offset =? MTDBRIDGE_IRQ_REG_ADDR then 1
    else if offset =? MTDBRIDGE_STATUS_REG_ADDR then 0
    else 7 * offset.

Definition readonly_bridge : list BridgeAccess → Z → Z :=
  λ _ offset, if offset =? MTDBRIDGE_IRQ_REG_ADDR then 1 else 0x40.

(** A peripheral that completes every command and then stays busy. *)
Definition busy_bridge : list BridgeAccess → Z → Z := λ _ _, 1.

(** * Properties *)

Section Session_facts.
Context `{Platform}.

(** C5: [startFirmwareUpdate] always leaves the context reset (cursor at the
    buffer base, expected length [length], nothing received, the new
    command, in progress), touches nothing else, and answers
    [e_EC_UPDATE_ALREADY_IN_PROGRESS] exactly when a session was in progress
    at the call, [e_EC_SUCCESS] otherwise; the prior session's progress is
    gone either way. *)
Theorem startFirmwareUpdate_resets (cmd : string) (length : Z) (g : Globals) :
  let r := startFirmwareUpdate cmd length g in
  fwUpdateCtxt r.2
    = Ctxt.mk TRUE length 0 XPAR_DDR2_CONTROL_MPMC_BASEADDR
        XPAR_DDR2_CONTROL_MPMC_BASEADDR cmd
  ∧ Ctxt.fwImagePtr (fwUpdateCtxt r.2) = Ctxt.fwImageBase (fwUpdateCtxt r.2)
  ∧ in_progress r.2 = true
  ∧ r.2 = set_fwUpdateCtxt (fwUpdateCtxt r.2) g
  ∧ (r.1 = e_EC_UPDATE_ALREADY_IN_PROGRESS ↔ in_progress g = true)
  ∧ (r.1 = e_EC_SUCCESS ↔ in_progress g = false).
Proof.
  unfold startFirmwareUpdate, in_progress; cbn.
  repeat split; try reflexivity;
    destruct (truthy (Ctxt.bUpdateInProgress (fwUpdateCtxt g)));
    intros; congruence.
Qed.

(** C9: a data packet that arrives when no session is in progress is
    answered [e_EC_UPDATE_NOT_IN_PROGRESS] and changes nothing: the
    context, the staging memory and every other global are as before. *)
Theorem sendDataPacket_not_in_progress
    (data : FirmwareUpdate__FwData) (g : Globals) :
  in_progress g = false →
  sendDataPacket data g = (e_EC_UPDATE_NOT_IN_PROGRESS, g).
Proof.
  unfold in_progress, sendDataPacket. intros ->. reflexivity.
Qed.

(** No session is in progress before the first start. *)
Lemma initially_idle : in_progress initial_globals = false.
Proof. reflexivity. Qed.

(** The packet that fills the declared length leaves no session in
    progress. *)
Lemma idle_after_completion (data : FirmwareUpdate__FwData) (g : Globals) :
  in_progress g = true →
  Ctxt.length (fwUpdateCtxt g)
    <= uint32 (Ctxt.bytesReceived (fwUpdateCtxt g) + m_size data) →
  in_progress (sendDataPacket data g).2 = false
  ∧ executeUpdate (sendDataPacket data g).2 = TRUE.
Proof.
  unfold in_progress, sendDataPacket. intros -> Hge. cbn.
  destruct (Z.geb_spec
              (uint32 (Ctxt.bytesReceived (fwUpdateCtxt g) + m_size data))
              (Ctxt.length (fwUpdateCtxt g))); [split; reflexivity | lia].
Qed.

End Session_facts.

Lemma sendDataPacket_not_in_progress_witness :
  sendDataPacket (mkSequence [0xDE; 0xAD; 0xBE; 0xEF] 4) initial_globals
  = (e_EC_UPDATE_NOT_IN_PROGRESS, initial_globals).
Proof.
  apply sendDataPacket_not_in_progress. reflexivity.
Defined.

(** ** The event latch *)

Lemma arm_arm (g : Globals) : arm (arm g) = arm g.
Proof. reflexivity. Qed.

Lemma iter_arm (k : nat) (g : Globals) : Nat.iter (S k) arm g = arm g.
Proof.
  induction k as [|k IH]; [reflexivity|].
  change (Nat.iter (S (S k)) arm g) with (arm (Nat.iter (S k) arm g)).
  rewrite IH. apply arm_arm.
Qed.

(** Once drained, the latch answers every poll with the null event and does
    not change. *)
Lemma poll_all_drained (es : list FirmwareUpdate__GenericEvent) (g : Globals) :
  truthy (eventValid g) = false →
  poll_all es g = (map no_event es, g).
Proof.
  intros Hg. induction es as [|e es IH]; [reflexivity|].
  cbn [poll_all map]. unfold get_nextQueuedEvent. rewrite Hg, IH. reflexivity.
Qed.

(** C6: the latch holds at most one event.  However many times it is armed
    before it is polled, the first poll delivers one firmware-update event
    and clears the latch, and every later poll, until the next arm, answers
    with the null event code and leaves the globals as they are. *)
Theorem latch_single_slot (g : Globals) (k : nat)
    (e : FirmwareUpdate__GenericEvent)
    (es : list FirmwareUpdate__GenericEvent) :
  let armed := Nat.iter (S k) arm g in
  armed = arm g
  ∧ poll_all (e :: es) armed
    = (delivered_event g e :: map no_event es, set_eventValid FALSE g)
  ∧ eventCode <$> (poll_all (e :: es) armed).1
    = FIRMWARE_UPDATE_EVENT :: replicate (length es) NULL_EVENT
  ∧ poll_all es (poll_all [e] armed).2
    = (map no_event es, (poll_all [e] armed).2).
Proof.
  cbv zeta. rewrite iter_arm.
  assert (Hd : truthy (eventValid (set_eventValid FALSE (arm g))) = false)
    by reflexivity.
  assert (Hp : poll_all (e :: es) (arm g)
               = (delivered_event g e :: map no_event es, set_eventValid FALSE g)).
  { cbn [poll_all]. unfold get_nextQueuedEvent.
    change (truthy (eventValid (arm g))) with true. cbv iota.
    rewrite (poll_all_drained es _ Hd). reflexivity. }
  split; [reflexivity|]. split; [exact Hp|]. split.
  - rewrite Hp. cbn. f_equal. clear Hp.
    induction es as [|x es IH]; [reflexivity|]. cbn. f_equal. exact IH.
  - apply poll_all_drained. reflexivity.
Qed.

(** C10: the enable state of the event queue is one flag for every event
    code.  Setting it with two different event codes gives the same
    globals, reading it with two different event codes gives the same
    answer, and what is read back under any code is what was set under any
    other. *)
Theorem eventQueueEnabled_ignores_eventCode
    (code1 code2 : Z) (enabled : bool) (g : Globals) :
  set_eventQueueEnabled code1 enabled g = set_eventQueueEnabled code2 enabled g
  ∧ get_eventQueueEnabled code1 g = get_eventQueueEnabled code2 g
  ∧ (get_eventQueueEnabled code2 (set_eventQueueEnabled code1 enabled g).2).1.2
    = enabled.
Proof.
  repeat split. destruct enabled; reflexivity.
Qed.

(** ** The counters of a session *)

Lemma uint32_range (x : Z) : is_uint32 (uint32 x).
Proof. unfold is_uint32, uint32. apply Z.mod_pos_bound. lia. Qed.

Lemma uint32_small (x : Z) : is_uint32 x → uint32 x = x.
Proof. unfold is_uint32, uint32. intros Hx. apply Z.mod_small. exact Hx. Qed.

Lemma uint32_advance (p b s : Z) :
  uint32 (uint32 (p + s) - b) = uint32 (uint32 (p - b) + s).
Proof.
  unfold uint32.
  rewrite Zminus_mod_idemp_l, Zplus_mod_idemp_l. f_equal. lia.
Qed.

Section Session_invariant.
Context `{Platform}.

Lemma startFirmwareUpdate_invariant (cmd : string) (length : Z) (g : Globals) :
  is_uint32 length → session_invariant (startFirmwareUpdate cmd length g).2.
Proof.
  intros [Hl _]. unfold session_invariant; cbn. split; [exact Hl|].
  rewrite Z.sub_diag. reflexivity.
Qed.

Lemma sendDataPacket_invariant (data : FirmwareUpdate__FwData) (g : Globals) :
  (in_progress g = true → session_invariant g) →
  in_progress (sendDataPacket data g).2 = true →
  session_invariant (sendDataPacket data g).2.
Proof.
  unfold in_progress, sendDataPacket, session_invariant.
  destruct (truthy (Ctxt.bUpdateInProgress (fwUpdateCtxt g))) eqn:Hp; cbn.
  - intros Hinv. destruct (Hinv eq_refl) as [_ Hptr].
    destruct (Z.geb_spec
                (uint32 (Ctxt.bytesReceived (fwUpdateCtxt g) + m_size data))
                (Ctxt.length (fwUpdateCtxt g))) as [Hge|Hlt]; cbn.
    + intros Hf. discriminate Hf.
    + intros _. split; [lia|].
      rewrite uint32_advance, Hptr. reflexivity.
  - intros _ Hf. rewrite Hp in Hf. discriminate Hf.
Qed.

Lemma run_op_invariant (op : SessionOp) (g : Globals) :
  wf_op op →
  (in_progress g = true → session_invariant g) →
  in_progress (run_op op g).2 = true → session_invariant (run_op op g).2.
Proof.
  destruct op as [command length|bytes]; cbn [run_op wf_op]; intros Hwf Hinv.
  - intros _. apply startFirmwareUpdate_invariant, Hwf.
  - apply sendDataPacket_invariant, Hinv.
Qed.

Lemma run_ops_invariant (ops : list SessionOp) (g : Globals) :
  Forall wf_op ops →
  (in_progress g = true → session_invariant g) →
  in_progress (run_ops ops g) = true → session_invariant (run_ops ops g).
Proof.
  intros Hwf. revert g.
  induction Hwf as [|op ops Hop _ IH]; intros g Hinv; [exact Hinv|].
  apply IH. apply run_op_invariant; assumption.
Qed.

(** C2, as amended: at every point of every sequence of start and
    acceptPacket operations at which a session is in progress,
    [bytesReceived <= length] and
    [fwImagePtr - fwImageBase == bytesReceived]. *)
Theorem invariant_while_in_progress (ops : list SessionOp) :
  Forall wf_op ops →
  in_progress (run_ops ops initial_globals) = true →
  session_invariant (run_ops ops initial_globals).
Proof.
  intros Hwf. apply run_ops_invariant; [exact Hwf|].
  intros Hf. discriminate Hf.
Qed.

End Session_invariant.

(** C2 fails as stated: after the packet that completes the session the
    counter stands at four while the cursor is still at the buffer base. *)
Lemma invariant_broken_at_completion :
  let g := @run_ops bench four_byte_session initial_globals in
  Ctxt.bytesReceived (fwUpdateCtxt g) = 4
  ∧ Ctxt.fwImagePtr (fwUpdateCtxt g) - Ctxt.fwImageBase (fwUpdateCtxt g) = 0
  ∧ ¬ session_invariant g.
Proof.
  split; [reflexivity|]. split; [reflexivity|].
  intros [_ Hptr]. vm_compute in Hptr. discriminate Hptr.
Qed.

(** A packet longer than what is left of the declared length is taken
    whole: the counter passes the declared length. *)
Lemma invariant_broken_by_overrun :
  let g := @run_ops bench
             [ start "run commit" 4;
               acceptPacket (mkSequence [1; 2; 3; 4; 5; 6] 6) ]
             initial_globals in
  Ctxt.bytesReceived (fwUpdateCtxt g) = 6
  ∧ Ctxt.length (fwUpdateCtxt g) = 4
  ∧ ¬ session_invariant g.
Proof.
  split; [reflexivity|]. split; [reflexivity|].
  intros [Hle _]. vm_compute in Hle. apply Hle. reflexivity.
Qed.

Lemma invariant_while_in_progress_witness :
  session_invariant
    (@run_ops bench
       [ start "run commit" 4; acceptPacket (mkSequence [0xDE; 0xAD] 2) ]
       initial_globals).
Proof.
  apply (@invariant_while_in_progress bench).
  - repeat constructor; cbn; unfold is_uint32; lia.
  - reflexivity.
Defined.

(** ** The update executor *)

Section Executor.
Context `{Platform}.

(** C1, as amended: [executeFirmwareUpdate] writes the state cell as
    follows.  When the staged image is not of the recognized type, the
    state is the corrupt-image state and the shell is not called.  When the
    type is recognized and the data checksum is bad, the failure indicator
    is persisted ([crcreturn] is 1), the state is the corrupt-image state
    and the shell is not called.  Otherwise the shell is called once, with
    the stored command, on the memory and the environment as the checksum
    check has left them, and the state is the not-executed state when the
    shell answers non-zero and the success state when it answers zero.  The
    function returns 0 for the success state and 1 for the others. *)
Theorem executeFirmwareUpdate_cases (g : Globals) :
  let hdr := Ctxt.fwImageBase (fwUpdateCtxt g) in
  let r := executeFirmwareUpdate g in
  ∃ new : list ExternalCall,
    trace r.2 = trace g ++ new
    ∧ r.1 = (if decide (state r.2 = UPDATE_SUCCESS) then 0 else 1)
    ∧ if image_check_type (memory g) hdr IH_TYPE_KERNEL then
        if image_check_dcrc (memory g) hdr then
          shell_calls new = [Ctxt.cmd (fwUpdateCtxt g)]
          ∧ state r.2 = post_command (doCrcCheck g).2
        else
          shell_calls new = []
          ∧ environment r.2 !! "crcreturn" = Some "1"
          ∧ state r.2 = UPDATE_CORRUPT_IMAGE
      else
        shell_calls new = []
        ∧ state r.2 = UPDATE_CORRUPT_IMAGE.
Proof.
  cbv zeta. unfold executeFirmwareUpdate, doCrcCheck.
  set (hdr := Ctxt.fwImageBase (fwUpdateCtxt g)).
  change (memory (call _ g)) with (memory g).
  destruct (image_check_type (memory g) hdr IH_TYPE_KERNEL).
  - change (memory (call _ (setenv _ _ (call _ g)))) with (memory g).
    destruct (image_check_dcrc (memory g) hdr); cbn -[insert].
    + exists [ X_image_check_type hdr IH_TYPE_KERNEL; X_setenv "crcreturn" "0";
               X_image_check_dcrc hdr;
               X_parse_string_outer (Ctxt.cmd (fwUpdateCtxt g)) ].
      unfold post_command; cbn -[insert].
      destruct (exit_code (parse_string_outer _ _ _) =? 0) eqn:Hrc; cbn -[insert];
        rewrite <- !app_assoc, ?Hrc; repeat split.
    + exists [ X_image_check_type hdr IH_TYPE_KERNEL; X_setenv "crcreturn" "0";
               X_image_check_dcrc hdr; X_setenv "crcreturn" "1" ].
      rewrite <- !app_assoc. repeat split. apply lookup_insert_eq.
  - cbn. eexists. repeat split.
Qed.

End Executor.

(** C1 fails as stated: the four staged bytes of the spec's scenario are
    not an image the bench platform recognizes; the design text then goes on
    to the post-command and ends in the success state, the code ends in the
    corrupt-image state without calling the shell. *)
Lemma unrecognized_type_is_corrupt :
  let g := @run_ops bench four_byte_session initial_globals in
  truthy (executeUpdate g) = true
  ∧ @image_check_type bench (memory g) (Ctxt.fwImageBase (fwUpdateCtxt g))
      (@IH_TYPE_KERNEL bench) = false
  ∧ @execute_reference bench g = UPDATE_SUCCESS
  ∧ state (@executeFirmwareUpdate bench g).2 = UPDATE_CORRUPT_IMAGE
  ∧ shell_calls (trace (@executeFirmwareUpdate bench g).2) = []
  ∧ state (@executeFirmwareUpdate bench g).2 ≠ @execute_reference bench g.
Proof.
  repeat split; try reflexivity. vm_compute. discriminate.
Qed.

(** ** The two switches *)

Section Switches.
Context `{Platform}.

(** C3, as amended: for a request whose class code is not
    [k_CC_AvbSystem], what the boot polling window does with it (switch on
    the class code, response written with the reported length) is what the
    main loop of the dispatcher does with it in steps 2 and 3: the same
    globals result and the same response frame goes out.  A request of
    class [k_CC_AvbSystem], which the main loop routes to the unmarshal
    collaborator, is answered by the polling window with the
    invalid-service-code response. *)
Theorem boot_request_as_dispatcher (request : RequestMessageBuffer_t)
    (g : Globals) :
  CheckFirmwareUpdate_request request g
  = if decide (getClassCode_req request = k_CC_AvbSystem)
    then write_response (report_malformed g)
    else write_response (DoFirmwareUpdate_switch request g).
Proof.
  unfold CheckFirmwareUpdate_request, CheckFirmwareUpdate_switch,
    DoFirmwareUpdate_switch.
  destruct (getClassCode_req request); reflexivity.
Qed.

(** The response the [default:] branch leaves: the invalid-service-code
    status and a length that stops at the payload offset. *)
Lemma report_malformed_response (g : Globals) :
  let r := response (write_response (report_malformed g)) in
  getStatusCode_resp r = e_EC_INVALID_SERVICE_CODE
  ∧ getLength_resp r
    = getPayloadOffset_resp
        (setStatusCode_resp (response g) e_EC_INVALID_SERVICE_CODE).
Proof. split; reflexivity. Qed.

End Switches.

(** C3 fails as stated: a request of class [k_CC_AvbSystem] is routed to
    the unmarshal collaborator by the main loop and answered with the
    invalid-service-code response by the polling window. *)
Lemma boot_request_differs_on_AvbSystem :
  let request := mkRequest k_CC_AvbSystem Op_remainInBootloader in
  response (@CheckFirmwareUpdate_request bench request initial_globals)
    = mkResponse 4 e_EC_INVALID_SERVICE_CODE P_none
  ∧ response
      (write_response (@DoFirmwareUpdate_switch bench request initial_globals))
    = mkResponse 4 e_EC_SUCCESS P_none
  ∧ response (@CheckFirmwareUpdate_request bench request initial_globals)
    ≠ response
        (write_response
           (@DoFirmwareUpdate_switch bench request initial_globals)).
Proof.
  repeat split; try reflexivity. vm_compute. discriminate.
Qed.

(** ** Completion of a transfer in the dispatcher *)

Lemma statuses_app (t u : list ExternalCall) :
  statuses (t ++ u) = statuses t ++ statuses u.
Proof.
  induction t as [|c t IH]; [reflexivity|].
  destruct c; cbn; rewrite IH; reflexivity.
Qed.

Lemma notifications_app (t u : list ExternalCall) :
  notifications (t ++ u) = (notifications t + notifications u)%nat.
Proof.
  induction t as [|c t IH]; [reflexivity|].
  destruct c; cbn; rewrite IH; reflexivity.
Qed.

Lemma executions_app (t u : list ExternalCall) :
  executions (t ++ u) = (executions t + executions u)%nat.
Proof.
  induction t as [|c t IH]; [reflexivity|].
  destruct c; cbn; rewrite IH; reflexivity.
Qed.

Section Completion.
Context `{Platform}.

(** The executor neither reads nor writes the flags of the dispatcher and
    of the latch. *)
Lemma executeFirmwareUpdate_set_queueEnabled (v : Z) (g : Globals) :
  executeFirmwareUpdate (set_queueEnabled v g)
  = ((executeFirmwareUpdate g).1, set_queueEnabled v (executeFirmwareUpdate g).2).
Proof.
  unfold executeFirmwareUpdate, doCrcCheck. cbn -[insert].
  destruct (image_check_type _ _ _); [|reflexivity].
  cbn -[insert]. destruct (image_check_dcrc _ _); [|reflexivity].
  cbn -[insert]. destruct (exit_code (parse_string_outer _ _ _) =? 0); reflexivity.
Qed.

Lemma executeFirmwareUpdate_flags (g : Globals) :
  let g' := (executeFirmwareUpdate g).2 in
  eventValid g' = eventValid g
  ∧ queueEnabled g' = queueEnabled g
  ∧ executeUpdate g' = executeUpdate g
  ∧ fwUpdateCtxt g' = fwUpdateCtxt g.
Proof.
  cbv zeta. unfold executeFirmwareUpdate, doCrcCheck. cbn -[insert].
  destruct (image_check_type _ _ _); [|repeat split].
  cbn -[insert]. destruct (image_check_dcrc _ _); [|repeat split].
  cbn -[insert]. destruct (exit_code (parse_string_outer _ _ _) =? 0); repeat split.
Qed.

(** One run of the executor asks for the image type once, raises no
    notification and writes no response. *)
Lemma executeFirmwareUpdate_trace (g : Globals) :
  ∃ new : list ExternalCall,
    trace (executeFirmwareUpdate g).2 = trace g ++ new
    ∧ executions new = 1%nat ∧ notifications new = O ∧ statuses new = [].
Proof.
  unfold executeFirmwareUpdate, doCrcCheck.
  set (hdr := Ctxt.fwImageBase (fwUpdateCtxt g)). cbn -[insert].
  destruct (image_check_type _ _ _).
  - cbn -[insert]. destruct (image_check_dcrc _ _); cbn -[insert].
    + exists [ X_image_check_type hdr IH_TYPE_KERNEL; X_setenv "crcreturn" "0";
               X_image_check_dcrc hdr;
               X_parse_string_outer (Ctxt.cmd (fwUpdateCtxt g)) ].
      destruct (exit_code (parse_string_outer _ _ _) =? 0); cbn -[insert];
        rewrite <- !app_assoc; repeat split.
    + exists [ X_image_check_type hdr IH_TYPE_KERNEL; X_setenv "crcreturn" "0";
               X_image_check_dcrc hdr; X_setenv "crcreturn" "1" ].
      rewrite <- !app_assoc. repeat split.
  - exists [ X_image_check_type hdr IH_TYPE_KERNEL ]. repeat split.
Qed.

(** C8: when a transfer has just completed, the dispatcher runs the
    executor and clears the execute-pending flag whether the event queue is
    enabled or not.  With the queue disabled the latch is left as it was and
    no notification is raised; with the queue enabled the result is the
    same globals with, in addition, the latch armed and one notification
    raised, and nothing else differs. *)
Theorem queue_flag_only_gates_latch (q : Z) (g : Globals) :
  truthy (executeUpdate g) = true →
  q ≠ 0 →
  let ran := (executeFirmwareUpdate g).2 in
  let off := DoFirmwareUpdate_execute (set_queueEnabled FALSE g) in
  let on := DoFirmwareUpdate_execute (set_queueEnabled q g) in
  off = set_queueEnabled FALSE (set_executeUpdate FALSE ran)
  ∧ on = call X_TrigAsyncLabXMailbox
           (arm (set_queueEnabled q (set_executeUpdate FALSE ran)))
  ∧ executeUpdate off = FALSE ∧ executeUpdate on = FALSE
  ∧ eventValid off = eventValid g ∧ eventValid on = TRUE
  ∧ (executions (trace off) = S (executions (trace g))
     ∧ executions (trace on) = S (executions (trace g)))
  ∧ (notifications (trace off) = notifications (trace g)
     ∧ notifications (trace on) = S (notifications (trace g))).
Proof.
  intros Hpending Hq. cbv zeta.
  assert (Hoff : DoFirmwareUpdate_execute (set_queueEnabled FALSE g)
                 = set_queueEnabled FALSE
                     (set_executeUpdate FALSE (executeFirmwareUpdate g).2)).
  { unfold DoFirmwareUpdate_execute.
    change (executeUpdate (set_queueEnabled FALSE g)) with (executeUpdate g).
    rewrite Hpending, executeFirmwareUpdate_set_queueEnabled. reflexivity. }
  assert (Hon : DoFirmwareUpdate_execute (set_queueEnabled q g)
                = call X_TrigAsyncLabXMailbox
                    (arm (set_queueEnabled q
                            (set_executeUpdate FALSE (executeFirmwareUpdate g).2)))).
  { unfold DoFirmwareUpdate_execute.
    change (executeUpdate (set_queueEnabled q g)) with (executeUpdate g).
    rewrite Hpending, executeFirmwareUpdate_set_queueEnabled. cbn.
    unfold truthy. destruct (Z.eqb_spec q 0); [contradiction|reflexivity]. }
  rewrite Hoff, Hon.
  destruct (executeFirmwareUpdate_flags g) as (Hev & _ & _ & _).
  destruct (executeFirmwareUpdate_trace g) as (new & Htr & Hex & Hno & _).
  cbn. rewrite Htr, !executions_app, !notifications_app, Hex, Hno. cbn.
  repeat split; try assumption; lia.
Qed.

End Completion.

Lemma queue_flag_only_gates_latch_witness :
  let g := @run_ops bench four_byte_session initial_globals in
  @DoFirmwareUpdate_execute bench (set_queueEnabled 1 g)
  = call X_TrigAsyncLabXMailbox
      (arm (set_queueEnabled 1
              (set_executeUpdate FALSE (@executeFirmwareUpdate bench g).2))).
Proof.
  cbv zeta.
  apply (@queue_flag_only_gates_latch bench 1
           (@run_ops bench four_byte_session initial_globals));
    [reflexivity | discriminate].
Defined.

(** ** A whole transfer through the dispatcher *)

Section Transfer.
Context `{Platform}.

(** [DoFirmwareUpdate] on an inbox that delivers exactly these requests goes
    through these turns and then waits for the next request. *)
Lemma DoFirmwareUpdate_run_requests (requests : list RequestMessageBuffer_t)
    (g : Globals) :
  DoFirmwareUpdate (Some <$> requests) g = Hangs (run_requests requests g).
Proof.
  revert g. induction requests as [|r rs IH]; intros g; [reflexivity|].
  cbn. apply IH.
Qed.

Lemma DoFirmwareUpdate_execute_idle (g : Globals) :
  truthy (executeUpdate g) = false → DoFirmwareUpdate_execute g = g.
Proof. unfold DoFirmwareUpdate_execute. intros ->. reflexivity. Qed.

Lemma DoFirmwareUpdate_execute_pending (g : Globals) :
  truthy (executeUpdate g) = true →
  let g' := DoFirmwareUpdate_execute g in
  ∃ new : list ExternalCall,
    trace g' = trace g ++ new
    ∧ executions new = 1%nat ∧ statuses new = []
    ∧ executeUpdate g' = FALSE
    ∧ fwUpdateCtxt g' = fwUpdateCtxt g.
Proof.
  intros Hp. cbv zeta. unfold DoFirmwareUpdate_execute. rewrite Hp.
  destruct (executeFirmwareUpdate_flags g) as (_ & Hq & _ & Hc).
  destruct (executeFirmwareUpdate_trace g) as (new & Htr & Hex & _ & Hst).
  destruct (executeFirmwareUpdate g) as [rv g1]. cbn in *.
  destruct (truthy (queueEnabled g1)); cbn.
  - exists (new ++ [X_TrigAsyncLabXMailbox]).
    rewrite Htr, executions_app, statuses_app, Hex, Hst, <- app_assoc.
    repeat split; assumption.
  - exists new. repeat split; assumption.
Qed.

(** One turn of the loop for a data packet, no execution pending before. *)
Lemma iteration_data_request (d : FirmwareUpdate__FwData) (g : Globals) :
  truthy (executeUpdate g) = false →
  let g' := DoFirmwareUpdate_iteration (data_request d) g in
  let received := uint32 (Ctxt.bytesReceived (fwUpdateCtxt g) + m_size d) in
  ∃ new : list ExternalCall,
    trace g' = trace g ++ new
    ∧ truthy (executeUpdate g') = false
    ∧ Ctxt.length (fwUpdateCtxt g') = Ctxt.length (fwUpdateCtxt g)
    ∧ if in_progress g then
        statuses new = [e_EC_SUCCESS]
        ∧ Ctxt.bytesReceived (fwUpdateCtxt g') = received
        ∧ if received >=? Ctxt.length (fwUpdateCtxt g)
          then in_progress g' = false ∧ executions new = 1%nat
          else in_progress g' = true ∧ executions new = O
      else
        statuses new = [e_EC_UPDATE_NOT_IN_PROGRESS]
        ∧ executions new = O
        ∧ in_progress g' = false.
Proof.
  intros Hidle. cbv zeta.
  unfold DoFirmwareUpdate_iteration, data_request, DoFirmwareUpdate_switch,
    FirmwareUpdate__unmarshal, sendDataPacket, in_progress.
  cbn [getClassCode_req req_classCode req_operation].
  destruct (truthy (Ctxt.bUpdateInProgress (fwUpdateCtxt g))) eqn:Hp;
    cbn [negb].
  - destruct (uint32 (Ctxt.bytesReceived (fwUpdateCtxt g) + m_size d)
              >=? Ctxt.length (fwUpdateCtxt g)) eqn:Hge.
    + match goal with |- context [DoFirmwareUpdate_execute ?x] =>
        destruct (DoFirmwareUpdate_execute_pending x eq_refl)
          as (new & Htr & Hex & Hst & Hflag & Hctx)
      end.
      eexists. rewrite Htr, Hflag, Hctx. cbn.
      split; [rewrite <- app_assoc; reflexivity|].
      rewrite statuses_app, executions_app, Hst, Hex. repeat split.
    + rewrite DoFirmwareUpdate_execute_idle by exact Hidle.
      eexists. cbn. rewrite Hp. repeat split. exact Hidle.
  - rewrite DoFirmwareUpdate_execute_idle by exact Hidle.
    eexists. cbn. rewrite Hp. repeat split. exact Hidle.
Qed.

Lemma total_size_nonneg (ds : list FirmwareUpdate__FwData) :
  Forall (λ d, 0 <= m_size d) ds → 0 <= total_size ds.
Proof.
  induction 1 as [|d ds Hd _ IH]; unfold total_size in *; cbn; lia.
Qed.

(** Packets that arrive when no session is in progress are all rejected and
    start no execution. *)
Lemma run_data_requests_idle (ds : list FirmwareUpdate__FwData) (g : Globals) :
  in_progress g = false →
  truthy (executeUpdate g) = false →
  let g' := run_requests (data_request <$> ds) g in
  ∃ new : list ExternalCall,
    trace g' = trace g ++ new
    ∧ statuses new = replicate (length ds) e_EC_UPDATE_NOT_IN_PROGRESS
    ∧ executions new = O
    ∧ in_progress g' = false
    ∧ truthy (executeUpdate g') = false.
Proof.
  cbv zeta. revert g. induction ds as [|d ds IH]; intros g Hidle Hflag.
  - exists []. cbn. rewrite app_nil_r. repeat split; assumption.
  - destruct (iteration_data_request d g Hflag) as (new1 & Htr1 & Hf1 & _ & Hrest).
    rewrite Hidle in Hrest. destruct Hrest as (Hst1 & Hex1 & Hidle1).
    destruct (IH _ Hidle1 Hf1) as (new2 & Htr2 & Hst2 & Hex2 & Hidle2 & Hf2).
    exists (new1 ++ new2). cbn [fmap list_fmap run_requests foldl].
    fold (run_requests (data_request <$> ds)
            (DoFirmwareUpdate_iteration (data_request d) g)).
    rewrite Htr2, Htr1, statuses_app, executions_app, Hst1, Hst2, Hex1, Hex2,
      <- app_assoc.
    repeat split; assumption.
Qed.

(** Packets that fill what is left of the declared length: one of them
    completes the session, the executor runs once, the packets after it are
    rejected. *)
Lemma run_data_requests_in_progress (ds : list FirmwareUpdate__FwData) :
  ∀ g : Globals,
    in_progress g = true →
    truthy (executeUpdate g) = false →
    0 <= Ctxt.bytesReceived (fwUpdateCtxt g) →
    Forall (λ d, 0 <= m_size d) ds →
    ds ≠ [] →
    Ctxt.bytesReceived (fwUpdateCtxt g) + total_size ds
      = Ctxt.length (fwUpdateCtxt g) →
    Ctxt.length (fwUpdateCtxt g) < 2 ^ 32 →
    let g' := run_requests (data_request <$> ds) g in
    ∃ (k : nat) (new : list ExternalCall),
      (k < length ds)%nat
      ∧ trace g' = trace g ++ new
      ∧ statuses new
        = replicate (S k) e_EC_SUCCESS
          ++ replicate (length ds - S k) e_EC_UPDATE_NOT_IN_PROGRESS
      ∧ executions new = 1%nat
      ∧ in_progress g' = false
      ∧ truthy (executeUpdate g') = false
      ∧ Ctxt.bytesReceived (fwUpdateCtxt g) + total_size (take (S k) ds)
        = Ctxt.length (fwUpdateCtxt g).
Proof.
  cbv zeta. induction ds as [|d ds IH]; intros g Hp Hflag Hr Hsz Hne Hsum Hlen;
    [contradiction|].
  apply Forall_cons in Hsz as [Hd Hds]. cbn [total_size foldr] in Hsum.
  fold (total_size ds) in Hsum.
  pose proof (total_size_nonneg ds Hds) as Hrest_nonneg.
  destruct (iteration_data_request d g Hflag) as (new1 & Htr1 & Hf1 & Hl1 & Hstep).
  rewrite Hp in Hstep. destruct Hstep as (Hst1 & Hrec1 & Hstep).
  rewrite uint32_small in Hrec1, Hstep by (unfold is_uint32; lia).
  cbn [fmap list_fmap run_requests foldl].
  fold (run_requests (data_request <$> ds)
          (DoFirmwareUpdate_iteration (data_request d) g)).
  destruct (Z.geb_spec (Ctxt.bytesReceived (fwUpdateCtxt g) + m_size d)
              (Ctxt.length (fwUpdateCtxt g))) as [Hge|Hlt].
  - destruct Hstep as (Hidle1 & Hex1).
    destruct (run_data_requests_idle ds _ Hidle1 Hf1)
      as (new2 & Htr2 & Hst2 & Hex2 & Hidle2 & Hf2).
    exists O, (new1 ++ new2).
    rewrite Htr2, Htr1, statuses_app, executions_app, Hst1, Hst2, Hex1, Hex2,
      <- app_assoc.
    cbn [length]. rewrite Nat.sub_succ, Nat.sub_0_r.
    repeat split; try assumption; [lia|].
    change (take 1 (d :: ds)) with (d :: take 0 ds). rewrite take_0.
    unfold total_size. cbn. lia.
  - destruct Hstep as (Hp1 & Hex1).
    assert (Hne' : ds ≠ []).
    { intros ->. cbn in Hsum. lia. }
    destruct (IH _ Hp1 Hf1)
      as (k & new2 & Hk & Htr2 & Hst2 & Hex2 & Hidle2 & Hf2 & Hsum2);
      try assumption; try lia.
    exists (S k), (new1 ++ new2).
    rewrite Htr2, Htr1, statuses_app, executions_app, Hst1, Hst2, Hex1, Hex2,
      <- app_assoc.
    cbn [length]. rewrite Nat.sub_succ.
    repeat split; try assumption; [lia|].
    rewrite Hrec1, Hl1 in Hsum2.
    change (take (S (S k)) (d :: ds)) with (d :: take (S k) ds).
    unfold total_size in *. cbn [foldr]. lia.
Qed.

(** The turn of the loop that takes the start request leaves a session in
    progress, with nothing received and no execution pending. *)
Lemma iteration_start_request (cmd : string) (length : Z) (g : Globals) :
  let g' := DoFirmwareUpdate_iteration (start_request cmd length) g in
  in_progress g' = true
  ∧ truthy (executeUpdate g') = false
  ∧ Ctxt.bytesReceived (fwUpdateCtxt g') = 0
  ∧ Ctxt.length (fwUpdateCtxt g') = length.
Proof.
  cbv zeta.
  unfold DoFirmwareUpdate_iteration, start_request, DoFirmwareUpdate_switch,
    FirmwareUpdate__unmarshal, startFirmwareUpdate.
  cbn [getClassCode_req req_classCode req_operation].
  match goal with |- context [DoFirmwareUpdate_execute ?x] => set (g1 := x) end.
  destruct (truthy (executeUpdate g1)) eqn:Hp.
  - destruct (DoFirmwareUpdate_execute_pending g1 Hp)
      as (new & _ & _ & _ & Hflag & Hctx).
    unfold in_progress. rewrite Hflag, Hctx. repeat split.
  - rewrite DoFirmwareUpdate_execute_idle by exact Hp.
    repeat split. exact Hp.
Qed.

(** C4, as amended: a start request with declared length [L] followed by
    at least one data packet, the sizes summing to exactly [L].  One packet
    completes the session, the one with which the sizes reach [L]: the
    packets up to it are answered with success, the packets after it with
    [e_EC_UPDATE_NOT_IN_PROGRESS]; the dispatcher
    runs the executor exactly once and leaves the execute-pending flag
    clear; the session is no longer in progress, and any further packet is
    rejected and changes nothing. *)
Theorem transfer_completes_once (cmd : string) (L : Z)
    (ds : list FirmwareUpdate__FwData) (g0 : Globals) :
  ds ≠ [] →
  Forall (λ d, 0 <= m_size d) ds →
  total_size ds = L →
  L < 2 ^ 32 →
  let g1 := DoFirmwareUpdate_iteration (start_request cmd L) g0 in
  let g2 := run_requests (data_request <$> ds) g1 in
  ∃ (k : nat) (new : list ExternalCall),
    (k < length ds)%nat
    ∧ trace g2 = trace g1 ++ new
    ∧ statuses new
      = replicate (S k) e_EC_SUCCESS
        ++ replicate (length ds - S k) e_EC_UPDATE_NOT_IN_PROGRESS
    ∧ total_size (take (S k) ds) = L
    ∧ executions new = 1%nat
    ∧ executeUpdate g2 = FALSE
    ∧ in_progress g2 = false
    ∧ ∀ d, sendDataPacket d g2 = (e_EC_UPDATE_NOT_IN_PROGRESS, g2).
Proof.
  intros Hne Hsz Hsum Hlen. cbv zeta.
  destruct (iteration_start_request cmd L g0) as (Hp & Hflag & Hrec & Hl).
  destruct (run_data_requests_in_progress ds _ Hp Hflag)
    as (k & new & Hk & Htr & Hst & Hex & Hidle & Hf & Hat);
    try assumption; try (rewrite ?Hrec, ?Hl; lia).
  exists k, new. repeat split; try assumption.
  - rewrite Hrec, Hl in Hat. lia.
  - unfold truthy in Hf. apply negb_false_iff, Z.eqb_eq in Hf. exact Hf.
  - intros d. unfold in_progress in Hidle. unfold sendDataPacket.
    rewrite Hidle. reflexivity.
Qed.

End Transfer.

(** C4 fails as stated: a session of declared length zero followed by no
    packet at all (sizes summing to zero) never completes; the session
    stays in progress, the executor does not run, and a further packet is
    accepted. *)
Lemma empty_transfer_never_completes :
  let ds : list FirmwareUpdate__FwData := [] in
  let g1 :=
    @DoFirmwareUpdate_iteration bench (start_request "run commit" 0)
      initial_globals in
  let g2 := @run_requests bench (data_request <$> ds) g1 in
  total_size ds = 0
  ∧ in_progress g2 = true
  ∧ executeUpdate g2 = FALSE
  ∧ executions (trace g2) = O
  ∧ (sendDataPacket (mkSequence [] 0) g2).1 = e_EC_SUCCESS.
Proof.
  repeat split.
Qed.

Lemma transfer_completes_once_witness :
  let ds := [ mkSequence [0xDE; 0xAD] 2; mkSequence [0xBE; 0xEF] 2 ] in
  let g1 :=
    @DoFirmwareUpdate_iteration bench (start_request "run commit" 4)
      initial_globals in
  let g2 := @run_requests bench (data_request <$> ds) g1 in
  ∃ (k : nat) (new : list ExternalCall),
    (k < length ds)%nat
    ∧ trace g2 = trace g1 ++ new
    ∧ statuses new
      = replicate (S k) e_EC_SUCCESS
        ++ replicate (length ds - S k) e_EC_UPDATE_NOT_IN_PROGRESS
    ∧ total_size (take (S k) ds) = 4
    ∧ executions new = 1%nat
    ∧ executeUpdate g2 = FALSE
    ∧ in_progress g2 = false
    ∧ ∀ d, sendDataPacket d g2 = (e_EC_UPDATE_NOT_IN_PROGRESS, g2).
Proof.
  cbv zeta.
  apply (@transfer_completes_once bench "run commit" 4
           [ mkSequence [0xDE; 0xAD] 2; mkSequence [0xBE; 0xEF] 2 ]
           initial_globals).
  - discriminate.
  - repeat constructor; cbn; lia.
  - reflexivity.
  - reflexivity.
Defined.

(** ** The boot decision *)

Section Boot.
Context `{Platform}.

(** What a request read by the polling window does to the two boot
    flags: only a recognized remain-in-bootloader request raises
    [firmwareUpdate], only a recognized boot-delay request raises
    [bootDelay], and nothing lowers them. *)
Lemma CheckFirmwareUpdate_request_flags (request : RequestMessageBuffer_t)
    (g : Globals) :
  let g' := CheckFirmwareUpdate_request request g in
  truthy (firmwareUpdate g')
    = truthy (firmwareUpdate g) || is_remainInBootloader request
  ∧ truthy (bootDelay g')
    = truthy (bootDelay g) || is_requestBootDelay request.
Proof.
  cbv zeta.
  unfold CheckFirmwareUpdate_request, CheckFirmwareUpdate_switch,
    is_remainInBootloader, is_requestBootDelay.
  destruct (getClassCode_req request); cbn;
    try (rewrite !orb_false_r; split; reflexivity).
  unfold FirmwareUpdate__unmarshal.
  destruct (req_operation request) as [cmd|cmd len|d| | | |code|code b|]; cbn;
    rewrite ?orb_false_r, ?orb_true_r; try (split; reflexivity).
  - unfold sendCommand.
    destruct (negb (exit_code (parse_string_outer _ _ _) =? 0)); split; reflexivity.
  - unfold sendDataPacket.
    destruct (negb (truthy (Ctxt.bUpdateInProgress (fwUpdateCtxt g))));
      [split; reflexivity|].
    destruct (_ >=? _); split; reflexivity.
  - unfold get_nextQueuedEvent.
    destruct (truthy (eventValid g)); split; reflexivity.
Qed.

Lemma CheckFirmwareUpdate_poll_flags (attempts : nat) :
  ∀ (inbox : list (option RequestMessageBuffer_t)) (g : Globals),
    let g' := (CheckFirmwareUpdate_poll attempts inbox g).2 in
    let reads := CheckFirmwareUpdate_reads attempts inbox g in
    truthy (firmwareUpdate g')
      = truthy (firmwareUpdate g) || existsb is_remainInBootloader reads
    ∧ truthy (bootDelay g')
      = truthy (bootDelay g) || existsb is_requestBootDelay reads.
Proof.
  cbv zeta. induction attempts as [|n IH]; intros inbox g.
  - cbn. rewrite !orb_false_r. split; reflexivity.
  - cbn [CheckFirmwareUpdate_poll CheckFirmwareUpdate_reads].
    destruct inbox as [|[request|] rest].
    + apply (IH [] (call (X_udelay 250000) g)).
    + destruct (CheckFirmwareUpdate_request_flags request g) as [Hf Hb].
      destruct (decide (getStatusCode_resp
                          (response (CheckFirmwareUpdate_request request g))
                        = e_EC_SUCCESS)).
      * cbn. rewrite !orb_false_r. split; assumption.
      * destruct (IH rest (CheckFirmwareUpdate_request request g)) as [Hf' Hb'].
        cbn [existsb]. rewrite Hf', Hb', Hf, Hb, !orb_assoc.
        split; reflexivity.
    + apply (IH rest (call (X_udelay 250000) g)).
Qed.

Lemma CheckFirmwareUpdate_probe_flags (g : Globals) :
  firmwareUpdate (CheckFirmwareUpdate_probe g) = firmwareUpdate g
  ∧ bootDelay (CheckFirmwareUpdate_probe g) = bootDelay g.
Proof. split; reflexivity. Qed.

(** C7: with both boot flags clear on entry, [CheckFirmwareUpdate] enters
    update mode (it runs the dispatcher loop on what is left of the inbox
    and never returns) exactly when the status word read from the ICAP, as
    a [u16], is the fallback magic or the polling window has read a
    remain-in-bootloader request; otherwise it returns, with 1 when the
    window has read a boot-delay request and with 0 when it has not. *)
Theorem CheckFirmwareUpdate_decision (fsl_word : Z)
    (inbox : list (option RequestMessageBuffer_t)) (g : Globals) :
  truthy (firmwareUpdate g) = false →
  truthy (bootDelay g) = false →
  let reads := CheckFirmwareUpdate_reads 4 inbox (CheckFirmwareUpdate_probe g) in
  let polled := CheckFirmwareUpdate_poll 4 inbox (CheckFirmwareUpdate_probe g) in
  if (uint16 fsl_word =? GENERAL5_MAGIC) || existsb is_remainInBootloader reads
  then
    CheckFirmwareUpdate fsl_word inbox g
    = Hangs (outcome_globals (DoFirmwareUpdate polled.1 polled.2))
  else
    CheckFirmwareUpdate fsl_word inbox g
    = Returns (if existsb is_requestBootDelay reads then 1 else 0) polled.2.
Proof.
  intros Hf Hb. cbv zeta. unfold CheckFirmwareUpdate.
  destruct (CheckFirmwareUpdate_poll_flags 4 inbox (CheckFirmwareUpdate_probe g))
    as [Hf' Hb'].
  destruct (CheckFirmwareUpdate_probe_flags g) as [Hpf Hpb].
  rewrite Hpf, Hf in Hf'. rewrite Hpb, Hb in Hb'. cbn [orb] in Hf', Hb'.
  destruct (CheckFirmwareUpdate_poll 4 inbox (CheckFirmwareUpdate_probe g))
    as [inbox1 g2].
  cbn [fst snd] in *. unfold CheckFirmwareUpdate_decide.
  destruct (uint16 fsl_word =? GENERAL5_MAGIC); cbn [orb].
  - cbn. destruct (DoFirmwareUpdate inbox1 g2); reflexivity.
  - rewrite Hf'. destruct (existsb is_remainInBootloader _).
    + cbn. destruct (DoFirmwareUpdate inbox1 g2); reflexivity.
    + rewrite Hb'. destruct (existsb is_requestBootDelay _); reflexivity.
Qed.

End Boot.

Lemma CheckFirmwareUpdate_decision_witness :
  let inbox := [ None; Some (mkRequest k_CC_FirmwareUpdate Op_requestBootDelay) ] in
  @CheckFirmwareUpdate bench 0 inbox initial_globals
  = Returns 1
      (@CheckFirmwareUpdate_poll bench 4 inbox
         (CheckFirmwareUpdate_probe initial_globals)).2.
Proof.
  cbv zeta.
  exact (@CheckFirmwareUpdate_decision bench 0
           [ None; Some (mkRequest k_CC_FirmwareUpdate Op_requestBootDelay) ]
           initial_globals eq_refl eq_refl).
Defined.

(** ** The scenarios of the design text, on the bench platform *)

(** The queue is enabled, a session of four bytes is started and filled,
    and the latch is polled twice: the three requests are answered with
    success, the executor runs and ends in the corrupt-image state, one
    notification is raised, the first poll delivers the firmware-update
    event with that state and the second the null event. *)
Example scenario_transfer_then_polls :
  let g :=
    @run_requests bench
      [ mkRequest k_CC_AvbSystem
          (Op_set_eventQueueEnabled FIRMWARE_UPDATE_EVENT true);
        start_request "run commit" 4;
        data_request (mkSequence [0xDE; 0xAD; 0xBE; 0xEF] 4) ]
      initial_globals in
  (statuses (trace g), executions (trace g), notifications (trace g), state g,
   (poll_all [blank_event; blank_event] g).1)
  = ([e_EC_SUCCESS; e_EC_SUCCESS; e_EC_SUCCESS], 1%nat, 1%nat,
     UPDATE_CORRUPT_IMAGE,
     [ mkGenericEvent FIRMWARE_UPDATE_EVENT (mkSequence [1] 1);
       mkGenericEvent NULL_EVENT (mkSequence [] 0) ]).
Proof. vm_compute. reflexivity. Qed.

(** No request within the four polls and no fallback: 0 is returned. *)
Example scenario_quiet_boot :
  returned (@CheckFirmwareUpdate bench 0 [] initial_globals) = Some 0.
Proof. vm_compute. reflexivity. Qed.

(** A remain-in-bootloader request at the first poll: update mode, with the
    later request left to the dispatcher loop. *)
Example scenario_remain_at_first_poll :
  let o :=
    @CheckFirmwareUpdate bench 0
      [ Some (mkRequest k_CC_FirmwareUpdate Op_remainInBootloader);
        Some (mkRequest k_CC_FirmwareUpdate Op_requestBootDelay) ]
      initial_globals in
  returned o = None
  ∧ statuses (trace (outcome_globals o)) = [e_EC_SUCCESS; e_EC_SUCCESS].
Proof. vm_compute. split; reflexivity. Qed.

(** The fallback magic in the low half of the word read: update mode. *)
Example scenario_fallback :
  returned (@CheckFirmwareUpdate bench 0x1ABCD [] initial_globals) = None.
Proof. vm_compute. reflexivity. Qed.

(** A class code that is not routed: invalid service code, empty payload. *)
Example scenario_unroutable :
  response
    (@DoFirmwareUpdate_iteration bench
       (mkRequest (k_CC_other 0x7F) Op_remainInBootloader) initial_globals)
  = mkResponse 4 e_EC_INVALID_SERVICE_CODE P_none.
Proof. vm_compute. reflexivity. Qed.

(** * Further properties of the firmware update *)

(** ** The staged image *)

Lemma store_bytes_congr (src : list Z) :
  ∀ (m : gmap Z Z) (a a' : Z),
    uint32 a = uint32 a' → store_bytes m a src = store_bytes m a' src.
Proof.
  induction src as [|b bs IH]; intros m a a' Ha; [reflexivity|].
  cbn. rewrite Ha. apply IH.
  unfold uint32 in *. rewrite (Z.add_mod a), (Z.add_mod a'), Ha by lia.
  reflexivity.
Qed.

Lemma store_bytes_app (x y : list Z) :
  ∀ (m : gmap Z Z) (a : Z),
    store_bytes m a (x ++ y)
    = store_bytes (store_bytes m a x) (a + Z.of_nat (length x)) y.
Proof.
  induction x as [|b bs IH]; intros m a; cbn [app store_bytes length].
  - rewrite Z.add_0_r. reflexivity.
  - rewrite IH. f_equal. lia.
Qed.

Lemma store_bytes_lookup_out (src : list Z) :
  ∀ (m : gmap Z Z) (a x : Z),
    0 <= a → a + Z.of_nat (length src) <= 2 ^ 32 →
    x < a ∨ a + Z.of_nat (length src) <= x →
    store_bytes m a src !! x = m !! x.
Proof.
  induction src as [|b bs IH]; intros m a x Ha Hend Hx; [reflexivity|].
  cbn [store_bytes length] in *.
  rewrite IH by lia.
  apply lookup_insert_ne. rewrite uint32_small by (unfold is_uint32; lia). lia.
Qed.

Lemma store_bytes_lookup_in (src : list Z) :
  ∀ (m : gmap Z Z) (a : Z) (i : nat) (b : Z),
    0 <= a → a + Z.of_nat (length src) <= 2 ^ 32 →
    src !! i = Some b →
    store_bytes m a src !! (a + Z.of_nat i) = Some b.
Proof.
  induction src as [|c cs IH]; intros m a i b Ha Hend Hi; [discriminate|].
  cbn [store_bytes length] in *. destruct i as [|i].
  - cbn in Hi. injection Hi as ->. rewrite Z.add_0_r.
    rewrite store_bytes_lookup_out by lia.
    rewrite uint32_small by (unfold is_uint32; lia). apply lookup_insert_eq.
  - cbn in Hi. replace (a + Z.of_nat (S i)) with (a + 1 + Z.of_nat i) by lia.
    apply IH; [lia | lia | exact Hi].
Qed.

Lemma packet_bytes_length (ds : list FirmwareUpdate__FwData) :
  Forall wf_packet ds → Z.of_nat (length (packet_bytes ds)) = total_size ds.
Proof.
  induction 1 as [|d ds Hd _ IH]; [reflexivity|].
  unfold packet_bytes, total_size in *. cbn [fmap list_fmap concat foldr].
  rewrite length_app, Nat2Z.inj_add, IH, Hd. reflexivity.
Qed.

Lemma packet_bytes_empty (ds : list FirmwareUpdate__FwData) :
  Forall wf_packet ds → total_size ds = 0 → packet_bytes ds = [].
Proof.
  intros Hwf Htot. apply nil_length_inv.
  apply Nat2Z.inj. rewrite packet_bytes_length by exact Hwf. exact Htot.
Qed.

Section Staging.
Context `{Platform}.

(** Packets that arrive when no session is in progress change nothing. *)
Lemma run_packets_idle (ds : list FirmwareUpdate__FwData) (g : Globals) :
  in_progress g = false → run_ops (acceptPacket <$> ds) g = g.
Proof.
  intros Hidle. induction ds as [|d ds IH]; [reflexivity|].
  cbn [fmap list_fmap run_ops foldl run_op].
  unfold sendDataPacket at 1. unfold in_progress in Hidle. rewrite Hidle.
  exact IH.
Qed.

(** The packets of a session go to the staging memory end to end, from the
    cursor on. *)
Lemma run_packets_memory (ds : list FirmwareUpdate__FwData) :
  ∀ g : Globals,
    in_progress g = true →
    0 <= Ctxt.bytesReceived (fwUpdateCtxt g) →
    uint32 (Ctxt.fwImagePtr (fwUpdateCtxt g))
    = uint32 (Ctxt.fwImageBase (fwUpdateCtxt g)
              + Ctxt.bytesReceived (fwUpdateCtxt g)) →
    Forall wf_packet ds →
    Ctxt.bytesReceived (fwUpdateCtxt g) + total_size ds
    <= Ctxt.length (fwUpdateCtxt g) →
    Ctxt.length (fwUpdateCtxt g) < 2 ^ 32 →
    memory (run_ops (acceptPacket <$> ds) g)
    = store_bytes (memory g)
        (Ctxt.fwImageBase (fwUpdateCtxt g) + Ctxt.bytesReceived (fwUpdateCtxt g))
        (packet_bytes ds).
Proof.
  induction ds as [|d ds IH]; intros g Hp Hr Hptr Hwf Hsum Hlen; [reflexivity|].
  apply Forall_cons in Hwf as [Hd Hds].
  assert (Hsize : 0 <= m_size d) by (rewrite Hd; lia).
  assert (Hrest : 0 <= total_size ds)
    by (rewrite <- packet_bytes_length by exact Hds; lia).
  unfold total_size in Hsum. cbn [foldr] in Hsum. fold (total_size ds) in Hsum.
  unfold packet_bytes. cbn [fmap list_fmap concat]. fold (packet_bytes ds).
  rewrite store_bytes_app.
  cbn [run_ops foldl run_op]. fold (run_ops (acceptPacket <$> ds)).
  assert (Hcopy :
            memcpy (memory g) (Ctxt.fwImagePtr (fwUpdateCtxt g)) (m_data d)
              (m_size d)
            = store_bytes (memory g)
                (Ctxt.fwImageBase (fwUpdateCtxt g)
                 + Ctxt.bytesReceived (fwUpdateCtxt g)) (m_data d)).
  { unfold memcpy. rewrite Hd, Nat2Z.id, firstn_all.
    apply store_bytes_congr, Hptr. }
  unfold sendDataPacket. unfold in_progress in Hp. rewrite Hp. cbn [negb].
  rewrite uint32_small by (unfold is_uint32; lia).
  destruct (Z.geb_spec
              (Ctxt.bytesReceived (fwUpdateCtxt g) + m_size d)
              (Ctxt.length (fwUpdateCtxt g))) as [Hge|Hlt]; cbn [snd].
  - match goal with |- context [foldl ?f ?x (acceptPacket <$> ds)] =>
      change (foldl f x (acceptPacket <$> ds))
        with (run_ops (acceptPacket <$> ds) x)
    end.
    rewrite run_packets_idle by reflexivity.
    rewrite (packet_bytes_empty ds) by (exact Hds || lia).
    cbn. exact Hcopy.
  - match goal with |- context [foldl ?f ?x (acceptPacket <$> ds)] =>
      change (foldl f x (acceptPacket <$> ds))
        with (run_ops (acceptPacket <$> ds) x)
    end.
    rewrite IH; cbn; try assumption; try lia.
    + rewrite Hcopy, <- Hd. f_equal. lia.
    + unfold uint32 in *.
      rewrite (Z.add_mod (Ctxt.fwImagePtr _)), Hptr, <- Z.add_mod by lia.
      rewrite Z.mod_mod by lia. f_equal. lia.
Qed.

(** X1: after a start and packets that are well formed and do not exceed
    the declared length, the staging memory holds the bytes of the packets
    end to end from the buffer base, and every address outside that stretch
    holds what it held before. *)
Theorem staged_image (cmd : string) (L : Z)
    (ds : list FirmwareUpdate__FwData) (g : Globals) :
  0 <= XPAR_DDR2_CONTROL_MPMC_BASEADDR →
  XPAR_DDR2_CONTROL_MPMC_BASEADDR + total_size ds <= 2 ^ 32 →
  Forall wf_packet ds →
  total_size ds <= L →
  L < 2 ^ 32 →
  let g' := run_ops (start cmd L :: (acceptPacket <$> ds)) g in
  (∀ (i : nat) (b : Z),
     packet_bytes ds !! i = Some b →
     memory g' !! (XPAR_DDR2_CONTROL_MPMC_BASEADDR + Z.of_nat i) = Some b)
  ∧ (∀ a : Z,
       a < XPAR_DDR2_CONTROL_MPMC_BASEADDR
       ∨ XPAR_DDR2_CONTROL_MPMC_BASEADDR + total_size ds <= a →
       memory g' !! a = memory g !! a).
Proof.
  intros Hbase Hend Hwf Hsum Hlen. cbv zeta.
  unfold run_ops. cbn [foldl run_op].
  match goal with |- context [foldl ?f ?x (acceptPacket <$> ds)] =>
    change (foldl f x (acceptPacket <$> ds))
      with (run_ops (acceptPacket <$> ds) x)
  end.
  rewrite run_packets_memory; cbn; try assumption; try lia;
    try reflexivity; [|rewrite Z.add_0_r; reflexivity].
  rewrite Z.add_0_r. pose proof (packet_bytes_length ds Hwf) as Hbytes. split.
  - intros i b Hi. apply store_bytes_lookup_in; [lia | lia | exact Hi].
  - intros a Ha. apply store_bytes_lookup_out; lia.
Qed.

End Staging.

Lemma staged_image_witness :
  let ds := [ mkSequence [0xDE; 0xAD] 2; mkSequence [0xBE; 0xEF] 2 ] in
  let g' :=
    @run_ops bench (start "run commit" 4 :: (acceptPacket <$> ds))
      initial_globals in
  memory g' !! (0x90000000 + Z.of_nat 2) = Some 0xBE.
Proof.
  cbv zeta.
  refine (proj1 (@staged_image bench "run commit" 4
                   [ mkSequence [0xDE; 0xAD] 2; mkSequence [0xBE; 0xEF] 2 ]
                   initial_globals _ _ _ _ _) 2%nat 0xBE _).
  - cbn. lia.
  - cbn. lia.
  - repeat constructor.
  - cbn. lia.
  - lia.
  - reflexivity.
Defined.

(** ** What one turn of the dispatcher loop does *)

Lemma sleeps_app (t u : list ExternalCall) :
  sleeps (t ++ u) = (sleeps t + sleeps u)%nat.
Proof.
  induction t as [|c t IH]; [reflexivity|].
  destruct c as [| | | | | | | | |usec]; cbn; try (rewrite IH; reflexivity).
  destruct usec as [|p|p]; try (rewrite IH; reflexivity).
  do 18 (destruct p as [p|p|]; try (rewrite IH; reflexivity)).
Qed.

Lemma shell_calls_app (t u : list ExternalCall) :
  shell_calls (t ++ u) = shell_calls t ++ shell_calls u.
Proof.
  induction t as [|c t IH]; [reflexivity|].
  destruct c; cbn; rewrite IH; reflexivity.
Qed.

Section Dispatcher_turn.
Context `{Platform}.

(** The operations behind the unmarshal collaborator write no response,
    run no executor, raise no notification and do not sleep. *)
Lemma FirmwareUpdate__unmarshal_trace (request : RequestMessageBuffer_t)
    (g : Globals) :
  ∃ new : list ExternalCall,
    trace (FirmwareUpdate__unmarshal request g) = trace g ++ new
    ∧ statuses new = [] ∧ executions new = O
    ∧ notifications new = O ∧ sleeps new = O.
Proof.
  unfold FirmwareUpdate__unmarshal.
  destruct (req_operation request) as [cmd|cmd len|d| | | |code|code b|].
  - exists [X_parse_string_outer cmd]. unfold sendCommand.
    destruct (negb (exit_code (parse_string_outer _ _ _) =? 0)); repeat split.
  - exists []. cbn. rewrite app_nil_r. repeat split.
  - exists []. unfold sendDataPacket.
    destruct (negb (truthy (Ctxt.bUpdateInProgress (fwUpdateCtxt g))));
      [cbn; rewrite app_nil_r; repeat split|].
    destruct (_ >=? _); cbn; rewrite app_nil_r; repeat split.
  - exists []. cbn. rewrite app_nil_r. repeat split.
  - exists []. cbn. rewrite app_nil_r. repeat split.
  - exists []. cbn. rewrite app_nil_r. repeat split.
  - exists []. cbn. rewrite app_nil_r. repeat split.
  - exists []. cbn. rewrite app_nil_r. repeat split.
  - exists []. unfold get_nextQueuedEvent.
    destruct (truthy (eventValid g)); cbn; rewrite app_nil_r; repeat split.
Qed.

(** The operations other than start and data packet leave the context and
    the memory as they are, unless the shell has run. *)
Lemma FirmwareUpdate__unmarshal_frame (request : RequestMessageBuffer_t)
    (g : Globals) :
  is_session_operation (req_operation request) = false →
  ∃ new : list ExternalCall,
    trace (FirmwareUpdate__unmarshal request g) = trace g ++ new
    ∧ (shell_calls new = [] →
       fwUpdateCtxt (FirmwareUpdate__unmarshal request g) = fwUpdateCtxt g
       ∧ memory (FirmwareUpdate__unmarshal request g) = memory g).
Proof.
  unfold FirmwareUpdate__unmarshal.
  destruct (req_operation request) as [cmd|cmd len|d| | | |code|code b|];
    cbn [is_session_operation]; intros Hop; try discriminate Hop;
    try solve [exists []; cbn; rewrite app_nil_r; repeat split].
  - exists [X_parse_string_outer cmd]. unfold sendCommand.
    destruct (negb (exit_code (parse_string_outer _ _ _) =? 0));
      (split; [reflexivity | intros Hno; discriminate Hno]).
  - exists []. unfold get_nextQueuedEvent.
    destruct (truthy (eventValid g)); cbn; rewrite app_nil_r; repeat split.
Qed.


(** The executor leaves the context and the memory as they are, unless
    the shell has run. *)
Lemma executeFirmwareUpdate_frame (g : Globals) :
  ∃ new : list ExternalCall,
    trace (executeFirmwareUpdate g).2 = trace g ++ new
    ∧ (shell_calls new = [] →
       fwUpdateCtxt (executeFirmwareUpdate g).2 = fwUpdateCtxt g
       ∧ memory (executeFirmwareUpdate g).2 = memory g).
Proof.
  unfold executeFirmwareUpdate, doCrcCheck.
  set (hdr := Ctxt.fwImageBase (fwUpdateCtxt g)). cbn -[insert].
  destruct (image_check_type _ _ _).
  - cbn -[insert]. destruct (image_check_dcrc _ _); cbn -[insert].
    + exists [ X_image_check_type hdr IH_TYPE_KERNEL; X_setenv "crcreturn" "0";
               X_image_check_dcrc hdr;
               X_parse_string_outer (Ctxt.cmd (fwUpdateCtxt g)) ].
      destruct (exit_code (parse_string_outer _ _ _) =? 0); cbn -[insert];
        rewrite <- !app_assoc;
        (split; [reflexivity | intros Hno; discriminate Hno]).
    + exists [ X_image_check_type hdr IH_TYPE_KERNEL; X_setenv "crcreturn" "0";
               X_image_check_dcrc hdr; X_setenv "crcreturn" "1" ].
      rewrite <- !app_assoc. repeat split.
  - exists [ X_image_check_type hdr IH_TYPE_KERNEL ]. repeat split.
Qed.

(** The executor ends in one of the three terminal states. *)
Lemma executeFirmwareUpdate_terminal (g : Globals) :
  state (executeFirmwareUpdate g).2 ≠ UPDATE_NUM_STATES.
Proof.
  unfold executeFirmwareUpdate, doCrcCheck. cbn -[insert].
  destruct (image_check_type _ _ _); [|discriminate].
  cbn -[insert]. destruct (image_check_dcrc _ _); [|discriminate].
  cbn -[insert]. destruct (exit_code (parse_string_outer _ _ _) =? 0); discriminate.
Qed.


(** Lines 284-291 leave the context and the memory as they are, unless the
    shell has run. *)
Lemma DoFirmwareUpdate_execute_frame (g : Globals) :
  let g' := DoFirmwareUpdate_execute g in
  ∃ new : list ExternalCall,
    trace g' = trace g ++ new
    ∧ (shell_calls new = [] →
       fwUpdateCtxt g' = fwUpdateCtxt g ∧ memory g' = memory g).
Proof.
  cbv zeta. unfold DoFirmwareUpdate_execute.
  destruct (truthy (executeUpdate g)).
  - destruct (executeFirmwareUpdate_frame g) as (new & Htr & Hkeep).
    destruct (executeFirmwareUpdate g) as [rv g1]. cbn in *.
    destruct (truthy (queueEnabled g1)); cbn.
    + exists (new ++ [X_TrigAsyncLabXMailbox]).
      rewrite Htr, <- app_assoc. split; [reflexivity|].
      rewrite shell_calls_app, app_nil_r. exact Hkeep.
    + exists new. split; [exact Htr | exact Hkeep].
  - exists []. rewrite app_nil_r. cbn. repeat split.
Qed.

Lemma write_response_trace (g : Globals) :
  ∃ resp size,
    trace (write_response g) = trace g ++ [X_WriteLabXMailbox resp size]
    ∧ getStatusCode_resp resp = getStatusCode_resp (response g).
Proof. eexists _, _. split; reflexivity. Qed.



(** X3: a request that is neither a start nor a data packet, taken in a
    turn of the dispatcher loop in which the shell is not called, leaves
    the firmware-update context and the memory as they are, also when the
    turn runs a pending execution that rejects the image: a transfer in
    progress survives attribute accesses and event polls that arrive
    between its packets.  (A turn that calls the shell, for a command
    request or for the post-command of a pending execution, hands the
    memory over to the command.) *)
Theorem other_requests_keep_session (request : RequestMessageBuffer_t)
    (g : Globals) :
  is_session_operation (req_operation request) = false →
  let g' := DoFirmwareUpdate_iteration request g in
  ∃ new : list ExternalCall,
    trace g' = trace g ++ new
    ∧ (shell_calls new = [] →
       fwUpdateCtxt g' = fwUpdateCtxt g ∧ memory g' = memory g).
Proof.
  intros Hop. cbv zeta. unfold DoFirmwareUpdate_iteration.
  assert (Hsw : ∃ new : list ExternalCall,
             trace (DoFirmwareUpdate_switch request g) = trace g ++ new
             ∧ (shell_calls new = [] →
                fwUpdateCtxt (DoFirmwareUpdate_switch request g)
                = fwUpdateCtxt g
                ∧ memory (DoFirmwareUpdate_switch request g) = memory g)).
  { unfold DoFirmwareUpdate_switch.
    destruct (getClassCode_req request);
      try (apply FirmwareUpdate__unmarshal_frame; exact Hop).
    exists []. cbn. rewrite app_nil_r. repeat split. }
  destruct Hsw as (new1 & Htr1 & Hkeep1).
  set (g1 := DoFirmwareUpdate_switch request g) in *.
  destruct (DoFirmwareUpdate_execute_frame (write_response g1))
    as (new3 & Htr3 & Hkeep3).
  destruct (write_response_trace g1) as (resp & size & Htr2 & _).
  exists (new1 ++ [X_WriteLabXMailbox resp size] ++ new3).
  rewrite Htr3, Htr2, Htr1, <- !app_assoc. split; [reflexivity|].
  rewrite !shell_calls_app. cbn [shell_calls app]. intros Hno.
  apply app_eq_nil in Hno as [Hno1 Hno3].
  destruct (Hkeep1 Hno1) as [Hc1 Hm1]. destruct (Hkeep3 Hno3) as [Hc3 Hm3].
  rewrite Hc3, Hm3. unfold write_response. cbn. split; assumption.
Qed.

(** X4: when a transfer has just completed and the event queue is enabled,
    the next poll of the latch delivers the firmware-update event with one
    byte of data, the code of the state the executor has just written,
    which is one of the three terminal states, and clears the latch. *)
Theorem completion_event (e : FirmwareUpdate__GenericEvent) (g : Globals) :
  truthy (executeUpdate g) = true →
  truthy (queueEnabled g) = true →
  let g' := DoFirmwareUpdate_execute g in
  let r := get_nextQueuedEvent e g' in
  state g' = state (executeFirmwareUpdate g).2
  ∧ eventCode r.1.2 = FIRMWARE_UPDATE_EVENT
  ∧ m_size (data r.1.2) = 1
  ∧ head (m_data (data r.1.2)) = Some (execution_state_code (state g'))
  ∧ 0 <= execution_state_code (state g') <= 2
  ∧ eventValid r.2 = FALSE.
Proof.
  intros Hp Hq. cbv zeta. unfold DoFirmwareUpdate_execute. rewrite Hp.
  destruct (executeFirmwareUpdate_flags g) as (_ & Hq' & _ & _).
  pose proof (executeFirmwareUpdate_terminal g) as Hterm.
  destruct (executeFirmwareUpdate g) as [rv g1]. cbn in *.
  rewrite Hq', Hq. cbn.
  repeat split; destruct (state g1); cbn; try lia; congruence.
Qed.

(** X5: [DoFirmwareUpdate] comes back only through a mailbox read that
    fails, and then with 1: it has taken the requests read before that one,
    in order, and none after it. *)
Theorem DoFirmwareUpdate_returns (requests : list RequestMessageBuffer_t)
    (rest inbox : list (option RequestMessageBuffer_t)) (g : Globals) :
  DoFirmwareUpdate ((Some <$> requests) ++ None :: rest) g
  = Returns 1 (run_requests requests g)
  ∧ (∀ rv g', DoFirmwareUpdate inbox g = Returns rv g' →
              rv = 1 ∧ None ∈ inbox).
Proof.
  split.
  - revert g. induction requests as [|r rs IH]; intros g; [reflexivity|].
    cbn. apply IH.
  - revert g. induction inbox as [|[r|] inbox IH]; intros g rv g' Hret.
    + discriminate Hret.
    + cbn in Hret. destruct (IH _ _ _ Hret) as [-> Hin].
      split; [reflexivity|]. right. exact Hin.
    + cbn in Hret. injection Hret as <- _. split; [reflexivity|]. left.
Qed.

End Dispatcher_turn.

Lemma other_requests_keep_session_witness :
  let g := @run_ops bench [ start "run commit" 4 ] initial_globals in
  let request := mkRequest k_CC_FirmwareUpdate Op_requestBootDelay in
  let g' := @DoFirmwareUpdate_iteration bench request g in
  fwUpdateCtxt g' = fwUpdateCtxt g ∧ memory g' = memory g.
Proof.
  cbv zeta.
  destruct (@other_requests_keep_session bench
              (mkRequest k_CC_FirmwareUpdate Op_requestBootDelay)
              (@run_ops bench [ start "run commit" 4 ] initial_globals)
              eq_refl) as (new & Htr & Hkeep).
  apply Hkeep. apply (f_equal shell_calls) in Htr.
  rewrite shell_calls_app in Htr. vm_compute in Htr.
  symmetry. exact Htr.
Defined.

Lemma completion_event_witness :
  let g := set_queueEnabled 1
             (@run_ops bench four_byte_session initial_globals) in
  eventCode
    (get_nextQueuedEvent blank_event (@DoFirmwareUpdate_execute bench g)).1.2
  = FIRMWARE_UPDATE_EVENT.
Proof.
  cbv zeta.
  exact (proj1 (proj2 (@completion_event bench blank_event
                         (set_queueEnabled 1
                            (@run_ops bench four_byte_session initial_globals))
                         eq_refl eq_refl))).
Defined.

(** ** The polling window *)

Section Window.
Context `{Platform}.

Lemma CheckFirmwareUpdate_request_trace (request : RequestMessageBuffer_t)
    (g : Globals) :
  let g' := CheckFirmwareUpdate_request request g in
  ∃ new : list ExternalCall,
    trace g' = trace g ++ new
    ∧ statuses new = [getStatusCode_resp (response g')]
    ∧ executions new = O ∧ notifications new = O ∧ sleeps new = O.
Proof.
  cbv zeta. unfold CheckFirmwareUpdate_request.
  assert (Hsw : ∃ new : list ExternalCall,
             trace (CheckFirmwareUpdate_switch request g) = trace g ++ new
             ∧ statuses new = [] ∧ executions new = O
             ∧ notifications new = O ∧ sleeps new = O).
  { unfold CheckFirmwareUpdate_switch.
    destruct (getClassCode_req request);
      try apply FirmwareUpdate__unmarshal_trace;
      exists []; cbn; rewrite app_nil_r; repeat split. }
  destruct Hsw as (new1 & Htr1 & Hst1 & Hex1 & Hno1 & Hsl1).
  set (g1 := CheckFirmwareUpdate_switch request g) in *.
  exists (new1 ++ [X_WriteLabXMailbox (response (write_response g1))
                     (getLength_resp (response g1))]).
  change (trace (write_response g1))
    with (trace g1 ++ [X_WriteLabXMailbox (response (write_response g1))
                         (getLength_resp (response g1))]).
  rewrite Htr1, <- app_assoc, statuses_app, executions_app, notifications_app,
    sleeps_app, Hst1, Hex1, Hno1, Hsl1.
  repeat split.
Qed.

Lemma CheckFirmwareUpdate_poll_trace (attempts : nat) :
  ∀ (inbox : list (option RequestMessageBuffer_t)) (g : Globals),
    let r := CheckFirmwareUpdate_poll attempts inbox g in
    ∃ new : list ExternalCall,
      trace r.2 = trace g ++ new
      ∧ (length (statuses new) + sleeps new <= attempts)%nat
      ∧ r.1 = drop (length (statuses new) + sleeps new) inbox
      ∧ executions new = O
      ∧ notifications new = O
      ∧ (e_EC_SUCCESS ∉ statuses new →
         (length (statuses new) + sleeps new)%nat = attempts)
      ∧ (∀ i : nat, statuses new !! i = Some e_EC_SUCCESS →
                    S i = length (statuses new)).
Proof.
  cbv zeta. induction attempts as [|n IH]; intros inbox g.
  - exists []. cbn. rewrite app_nil_r, drop_0.
    repeat split; try lia; try reflexivity. intros i Hi. discriminate Hi.
  - cbn [CheckFirmwareUpdate_poll]. destruct inbox as [|[request|] rest].
    + destruct (IH [] (call (X_udelay 250000) g))
        as (new & Htr & Hn & Hrest & Hex & Hno & Hfull & Hlast).
      exists (X_udelay 250000 :: new). rewrite Htr. cbn [trace call].
      rewrite <- app_assoc. cbn [app statuses sleeps executions notifications].
      rewrite drop_nil. rewrite drop_nil in Hrest.
      repeat split; try assumption; try lia.
      intros Hs. specialize (Hfull Hs). lia.
    + destruct (CheckFirmwareUpdate_request_trace request g)
        as (new1 & Htr1 & Hst1 & Hex1 & Hno1 & Hsl1).
      destruct (decide (getStatusCode_resp
                          (response (CheckFirmwareUpdate_request request g))
                        = e_EC_SUCCESS)) as [Hok|Hbad].
      * exists new1. cbn [fst snd]. rewrite Hst1, Hsl1. cbn [length].
        repeat split; try assumption; try lia.
        -- intros Hs. exfalso. apply Hs. rewrite Hok. left.
        -- intros [|i] Hi; [reflexivity | discriminate Hi].
      * destruct (IH rest (CheckFirmwareUpdate_request request g))
          as (new & Htr & Hn & Hrest & Hex & Hno & Hfull & Hlast).
        exists (new1 ++ new).
        rewrite Htr, Htr1, <- app_assoc, statuses_app, sleeps_app,
          executions_app, notifications_app, Hst1, Hsl1, Hex1, Hno1, Hex, Hno.
        cbn [app length Nat.add]. rewrite Hrest.
        repeat split; try lia.
        -- intros Hs. rewrite Hfull; [reflexivity|].
           intros Hin. apply Hs. right. exact Hin.
        -- intros [|i] Hi.
           ++ cbn in Hi. injection Hi as Hi. contradiction.
           ++ cbn in Hi. f_equal. apply Hlast, Hi.
    + destruct (IH rest (call (X_udelay 250000) g))
        as (new & Htr & Hn & Hrest & Hex & Hno & Hfull & Hlast).
      exists (X_udelay 250000 :: new). rewrite Htr. cbn [trace call].
      rewrite <- app_assoc. cbn [app statuses sleeps executions notifications].
      rewrite Hrest, Nat.add_succ_r.
      repeat split; try assumption; try lia.
      intros Hs. specialize (Hfull Hs). lia.
Qed.

(** X6: the polling window of [CheckFirmwareUpdate] makes at most four
    reads of the mailbox and consumes exactly what it reads; each read
    either answers a request or sleeps a quarter of a second; it stops early
    only after an answer with the success status, which is then the last
    answer, and it never runs the executor or raises a notification. *)
Theorem polling_window_bounded
    (inbox : list (option RequestMessageBuffer_t)) (g : Globals) :
  let r := CheckFirmwareUpdate_poll 4 inbox g in
  ∃ new : list ExternalCall,
    trace r.2 = trace g ++ new
    ∧ (length (statuses new) + sleeps new <= 4)%nat
    ∧ r.1 = drop (length (statuses new) + sleeps new) inbox
    ∧ executions new = O
    ∧ notifications new = O
    ∧ (e_EC_SUCCESS ∉ statuses new →
       (length (statuses new) + sleeps new)%nat = 4%nat)
    ∧ (∀ i : nat, statuses new !! i = Some e_EC_SUCCESS →
                  S i = length (statuses new)).
Proof. apply CheckFirmwareUpdate_poll_trace. Qed.

(** With no session in progress, a request read by the window does not
    change the execute-pending flag, and leaves no session in progress
    unless it is answered with success. *)
Lemma CheckFirmwareUpdate_request_idle (request : RequestMessageBuffer_t)
    (g : Globals) :
  in_progress g = false →
  let g' := CheckFirmwareUpdate_request request g in
  executeUpdate g' = executeUpdate g
  ∧ (getStatusCode_resp (response g') ≠ e_EC_SUCCESS → in_progress g' = false).
Proof.
  intros Hidle. cbv zeta.
  unfold CheckFirmwareUpdate_request, CheckFirmwareUpdate_switch.
  destruct (getClassCode_req request); cbn;
    try (split; [reflexivity | intros _; exact Hidle]).
  unfold FirmwareUpdate__unmarshal.
  destruct (req_operation request) as [cmd|cmd len|d| | | |code|code b|]; cbn;
    try (split; [reflexivity | intros _; exact Hidle]).
  - unfold sendCommand.
    destruct (negb (exit_code (parse_string_outer _ _ _) =? 0));
      (split; [reflexivity | intros _; exact Hidle]).
  - unfold in_progress in Hidle. rewrite Hidle. cbn.
    split; [reflexivity | intros Hne; contradiction].
  - unfold sendDataPacket. unfold in_progress in Hidle. rewrite Hidle. cbn.
    split; [reflexivity | intros _; exact Hidle].
  - unfold get_nextQueuedEvent.
    destruct (truthy (eventValid g));
      (split; [reflexivity | intros _; exact Hidle]).
Qed.

(** X7: entered with no session in progress, the polling window cannot
    complete a transfer: the execute-pending flag comes out as it went
    in. *)
Theorem polling_window_completes_nothing (attempts : nat)
    (inbox : list (option RequestMessageBuffer_t)) (g : Globals) :
  in_progress g = false →
  executeUpdate (CheckFirmwareUpdate_poll attempts inbox g).2 = executeUpdate g.
Proof.
  revert inbox g. induction attempts as [|n IH]; intros inbox g Hidle;
    [reflexivity|].
  cbn [CheckFirmwareUpdate_poll]. destruct inbox as [|[request|] rest].
  - rewrite IH by exact Hidle. reflexivity.
  - destruct (CheckFirmwareUpdate_request_idle request g Hidle) as [Hflag Hstay].
    destruct (decide (getStatusCode_resp
                        (response (CheckFirmwareUpdate_request request g))
                      = e_EC_SUCCESS)) as [Hok|Hbad].
    + exact Hflag.
    + rewrite IH by (apply Hstay, Hbad). exact Hflag.
  - rewrite IH by exact Hidle. reflexivity.
Qed.

(** X8: when the executor ends in the corrupt-image state it has not
    called the shell, and it has changed no variable of the environment
    other than [crcreturn]; [crcreturn] itself is written only when the
    image is of the recognized type.  (On the other two states the shell
    has run, and the environment is what the command has left.) *)
Theorem executeFirmwareUpdate_environment (name : string) (g : Globals) :
  state (executeFirmwareUpdate g).2 = UPDATE_CORRUPT_IMAGE →
  name ≠ "crcreturn" →
  ∃ new : list ExternalCall,
    trace (executeFirmwareUpdate g).2 = trace g ++ new
    ∧ shell_calls new = []
    ∧ environment (executeFirmwareUpdate g).2 !! name = environment g !! name
    ∧ (image_check_type (memory g) (Ctxt.fwImageBase (fwUpdateCtxt g))
         IH_TYPE_KERNEL = false →
       environment (executeFirmwareUpdate g).2 = environment g).
Proof.
  intros Hstate Hname. revert Hstate.
  unfold executeFirmwareUpdate, doCrcCheck.
  set (hdr := Ctxt.fwImageBase (fwUpdateCtxt g)).
  change (memory (call _ g)) with (memory g).
  destruct (image_check_type (memory g) hdr IH_TYPE_KERNEL).
  - change (memory (call _ (setenv _ _ (call _ g)))) with (memory g).
    destruct (image_check_dcrc (memory g) hdr); cbn -[insert].
    + destruct (exit_code (parse_string_outer _ _ _) =? 0); cbn -[insert];
        intros Hstate; discriminate Hstate.
    + intros _.
      exists [ X_image_check_type hdr IH_TYPE_KERNEL; X_setenv "crcreturn" "0";
               X_image_check_dcrc hdr; X_setenv "crcreturn" "1" ].
      rewrite <- !app_assoc. split; [reflexivity|]. split; [reflexivity|].
      split; [|intros Hty; discriminate Hty].
      rewrite !lookup_insert_ne by congruence. reflexivity.
  - cbn. intros _. exists [ X_image_check_type hdr IH_TYPE_KERNEL ].
    repeat split.
Qed.

End Window.

Lemma polling_window_completes_nothing_witness :
  executeUpdate
    (@CheckFirmwareUpdate_poll bench 4
       [ Some (data_request (mkSequence [1; 2] 2));
         Some (start_request "run commit" 2);
         Some (data_request (mkSequence [1; 2] 2)) ]
       initial_globals).2
  = executeUpdate initial_globals.
Proof.
  apply (@polling_window_completes_nothing bench). reflexivity.
Defined.

Lemma executeFirmwareUpdate_environment_witness :
  let g := set_environment {[ "bootcmd" := "run boot" ]}
             (@run_ops bench four_byte_session initial_globals) in
  environment (@executeFirmwareUpdate bench g).2 !! "bootcmd"
  = Some "run boot".
Proof.
  cbv zeta.
  destruct (@executeFirmwareUpdate_environment bench "bootcmd"
              (set_environment {[ "bootcmd" := "run boot" ]}
                 (@run_ops bench four_byte_session initial_globals)))
    as (new & _ & _ & Henv & _).
  - vm_compute. reflexivity.
  - discriminate.
  - rewrite Henv. vm_compute. reflexivity.
Defined.

(** * The reset command *)

(** X9: the two words written after GENERAL1 and GENERAL2 carry the
    half-word address of the run-time image, sixteen bits and eight bits,
    with the opcode byte of GENERAL2 zero; the two words written after
    GENERAL3 and GENERAL4 carry the base of the fallback image as it is,
    not halved. *)
Theorem do_reset_address_words (runtime_base boot_base : Z) :
  0 <= runtime_base < 2 ^ 25 →
  0 <= boot_base < 2 ^ 24 →
  nth 5 (do_reset_words runtime_base boot_base) 0
  + 2 ^ 16 * nth 7 (do_reset_words runtime_base boot_base) 0
  = runtime_base / 2
  ∧ 0 <= nth 7 (do_reset_words runtime_base boot_base) 0 < 2 ^ 8
  ∧ nth 9 (do_reset_words runtime_base boot_base) 0
    + 2 ^ 16 * nth 11 (do_reset_words runtime_base boot_base) 0
    = boot_base.
Proof.
  intros Hr Hb. cbn [nth do_reset_words].
  unfold multiboot_low, multiboot_high, fallback_low, fallback_high.
  change 0x0FFFF with (Z.ones 16). change 0x0FF with (Z.ones 8).
  rewrite !Z.land_ones, !Z.shiftr_div_pow2 by lia.
  change (2 ^ 1) with 2. change (2 ^ 17) with (2 * 2 ^ 16).
  rewrite <- Z.div_div by lia.
  assert (Hq : 0 <= runtime_base / 2 < 2 ^ 24).
  { split; [apply Z.div_pos; lia | apply Z.div_lt_upper_bound; lia]. }
  set (q := runtime_base / 2) in *.
  assert (Hqh : 0 <= q / 2 ^ 16 < 2 ^ 8).
  { split; [apply Z.div_pos; lia | apply Z.div_lt_upper_bound; lia]. }
  assert (Hbh : 0 <= boot_base / 2 ^ 16 < 2 ^ 8).
  { split; [apply Z.div_pos; lia | apply Z.div_lt_upper_bound; lia]. }
  rewrite (Z.mod_small (q / 2 ^ 16)), (Z.mod_small (boot_base / 2 ^ 16)) by lia.
  pose proof (Z.div_mod q (2 ^ 16)). pose proof (Z.div_mod boot_base (2 ^ 16)).
  lia.
Qed.

Lemma do_reset_address_words_witness :
  nth 5 (do_reset_words 0x00BE0000 0) 0
  + 2 ^ 16 * nth 7 (do_reset_words 0x00BE0000 0) 0
  = 0x00BE0000 / 2.
Proof.
  apply (do_reset_address_words 0x00BE0000 0); lia.
Defined.

(** * The MTD bridge *)

Lemma writes_to_app (r : Z) (t u : list BridgeAccess) :
  writes_to r (t ++ u) = writes_to r t ++ writes_to r u.
Proof.
  induction t as [|a t IH]; [reflexivity|].
  destruct a as [o d|o|ms]; cbn; try exact IH.
  destruct (o =? r); cbn; rewrite IH; reflexivity.
Qed.

Lemma reads_of_app (r : Z) (t u : list BridgeAccess) :
  reads_of r (t ++ u) = (reads_of r t + reads_of r u)%nat.
Proof.
  induction t as [|a t IH]; [reflexivity|].
  destruct a as [o d|o|ms]; cbn; try exact IH.
  destruct (o =? r); cbn; rewrite IH; reflexivity.
Qed.

Lemma delay_of_app (t u : list BridgeAccess) :
  delay_of (t ++ u) = delay_of t + delay_of u.
Proof.
  induction t as [|a t IH]; [reflexivity|].
  destruct a as [o d|o|ms]; cbn; lia.
Qed.

Lemma mailbox_words_app (t u : list BridgeAccess) :
  mailbox_words (t ++ u) = mailbox_words t ++ mailbox_words u.
Proof.
  induction t as [|a t IH]; [reflexivity|].
  destruct a as [o d|o|ms]; cbn; try exact IH.
  destruct (_ <=? o); cbn; rewrite IH; reflexivity.
Qed.

Section Bridge_command.
Variable device : list BridgeAccess → Z → Z.

Lemma mtd_bridge_cmd_poll_O (h : list BridgeAccess) :
  mtd_bridge_cmd_poll device O h
  = if Z.land (uint32 (device h MTDBRIDGE_IRQ_REG_ADDR))
         MTDBRIDGE_IRQ_COMPLETE_BIT =? 0
    then (MTDBRIDGE_SR_NORESP, h ++ [B_read MTDBRIDGE_IRQ_REG_ADDR])
    else (0, h ++ [B_read MTDBRIDGE_IRQ_REG_ADDR]).
Proof. reflexivity. Qed.

Lemma mtd_bridge_cmd_poll_S (n : nat) (h : list BridgeAccess) :
  mtd_bridge_cmd_poll device (S n) h
  = if Z.land (uint32 (device h MTDBRIDGE_IRQ_REG_ADDR))
         MTDBRIDGE_IRQ_COMPLETE_BIT =? 0
    then mtd_bridge_cmd_poll device n
           ((h ++ [B_read MTDBRIDGE_IRQ_REG_ADDR])
            ++ [B_mdelay MTDBRIDGE_TIMEOUT_SLICE])
    else (0, h ++ [B_read MTDBRIDGE_IRQ_REG_ADDR]).
Proof. reflexivity. Qed.

(** The first loop: at most one more read of the IRQ register than there
    are waits, a millisecond of sleep per wait used, no other access. *)
Lemma mtd_bridge_cmd_poll_effort (n : nat) :
  ∀ h : list BridgeAccess,
    let r := mtd_bridge_cmd_poll device n h in
    ∃ new : list BridgeAccess,
      r.2 = h ++ new
      ∧ (r.1 = 0 ∨ r.1 = MTDBRIDGE_SR_NORESP)
      ∧ (reads_of MTDBRIDGE_IRQ_REG_ADDR new <= S n)%nat
      ∧ reads_of MTDBRIDGE_STATUS_REG_ADDR new = O
      ∧ 0 <= delay_of new <= Z.of_nat n
      ∧ (∀ reg, writes_to reg new = [])
      ∧ mailbox_words new = []
      ∧ (r.1 = MTDBRIDGE_SR_NORESP →
         reads_of MTDBRIDGE_IRQ_REG_ADDR new = S n
         ∧ delay_of new = Z.of_nat n).
Proof.
  cbv zeta. induction n as [|n IH]; intros h.
  - rewrite mtd_bridge_cmd_poll_O.
    destruct (Z.land _ MTDBRIDGE_IRQ_COMPLETE_BIT =? 0);
      exists [B_read MTDBRIDGE_IRQ_REG_ADDR]; cbn;
      repeat split; auto; try lia; discriminate.
  - rewrite mtd_bridge_cmd_poll_S.
    destruct (Z.land _ MTDBRIDGE_IRQ_COMPLETE_BIT =? 0).
    + specialize (IH ((h ++ [B_read MTDBRIDGE_IRQ_REG_ADDR])
                      ++ [B_mdelay MTDBRIDGE_TIMEOUT_SLICE])).
      destruct (mtd_bridge_cmd_poll device n _) as [rc h'].
      cbn [fst snd] in *.
      destruct IH as (new & -> & Hrc & Hirq & Hst & Hd & Hw & Hm & Hto).
      exists ([B_read MTDBRIDGE_IRQ_REG_ADDR; B_mdelay MTDBRIDGE_TIMEOUT_SLICE]
              ++ new).
      split; [rewrite <- !app_assoc; reflexivity|]. split; [exact Hrc|].
      rewrite !reads_of_app, delay_of_app, mailbox_words_app, Hst, Hm.
      cbn. unfold MTDBRIDGE_TIMEOUT_SLICE.
      repeat split; auto; try lia.
    + exists [B_read MTDBRIDGE_IRQ_REG_ADDR]. cbn.
      repeat split; auto; try lia; discriminate.
Qed.

Lemma mtd_bridge_cmd_busy_done (n : nat) (rc : Z) (h : list BridgeAccess) :
  Z.land rc MTDBRIDGE_SR_OIP = 0 → mtd_bridge_cmd_busy device n rc h = (rc, h).
Proof.
  intros Hrc. destruct n; cbn [mtd_bridge_cmd_busy]; rewrite Hrc; reflexivity.
Qed.

Lemma mtd_bridge_cmd_busy_S (n : nat) (rc : Z) (h : list BridgeAccess) :
  Z.land rc MTDBRIDGE_SR_OIP ≠ 0 →
  mtd_bridge_cmd_busy device (S n) rc h
  = mtd_bridge_cmd_busy device n
      (int32 (uint32 (device (h ++ [B_mdelay MTDBRIDGE_TIMEOUT_SLICE])
                        MTDBRIDGE_STATUS_REG_ADDR)))
      ((h ++ [B_mdelay MTDBRIDGE_TIMEOUT_SLICE])
       ++ [B_read MTDBRIDGE_STATUS_REG_ADDR]).
Proof.
  intros Hrc. cbn [mtd_bridge_cmd_busy].
  apply Z.eqb_neq in Hrc. rewrite Hrc. reflexivity.
Qed.

Lemma mtd_bridge_cmd_busy_O (rc : Z) (h : list BridgeAccess) :
  mtd_bridge_cmd_busy device O rc h = (rc, h).
Proof. cbn. destruct (negb _); reflexivity. Qed.

(** The second loop: a millisecond of sleep and a read of the status
    register per wait used; it ends with the in-progress bit still set only
    when every wait has been used. *)
Lemma mtd_bridge_cmd_busy_effort (n : nat) :
  ∀ (rc : Z) (h : list BridgeAccess),
    let r := mtd_bridge_cmd_busy device n rc h in
    ∃ new : list BridgeAccess,
      r.2 = h ++ new
      ∧ reads_of MTDBRIDGE_IRQ_REG_ADDR new = O
      ∧ (reads_of MTDBRIDGE_STATUS_REG_ADDR new <= n)%nat
      ∧ 0 <= delay_of new <= Z.of_nat n
      ∧ (∀ reg, writes_to reg new = [])
      ∧ mailbox_words new = []
      ∧ (Z.land rc MTDBRIDGE_SR_OIP = 0 → r.1 = rc ∧ new = [])
      ∧ (Z.land r.1 MTDBRIDGE_SR_OIP ≠ 0 →
         reads_of MTDBRIDGE_STATUS_REG_ADDR new = n
         ∧ delay_of new = Z.of_nat n).
Proof.
  cbv zeta. induction n as [|n IH]; intros rc h.
  - rewrite mtd_bridge_cmd_busy_O. exists []. cbn. rewrite app_nil_r.
    repeat split; auto; lia.
  - destruct (Z.eq_dec (Z.land rc MTDBRIDGE_SR_OIP) 0) as [Hdone|Hbusy].
    + rewrite mtd_bridge_cmd_busy_done by exact Hdone.
      exists []. cbn [fst snd]. rewrite app_nil_r. cbn.
      repeat split; auto; try lia; intros Hc; contradiction.
    + rewrite mtd_bridge_cmd_busy_S by exact Hbusy.
      specialize (IH (int32 (uint32 (device
                        (h ++ [B_mdelay MTDBRIDGE_TIMEOUT_SLICE])
                        MTDBRIDGE_STATUS_REG_ADDR)))
                    ((h ++ [B_mdelay MTDBRIDGE_TIMEOUT_SLICE])
                     ++ [B_read MTDBRIDGE_STATUS_REG_ADDR])).
      destruct (mtd_bridge_cmd_busy device n _ _) as [rc' h'].
      cbn [fst snd] in *.
      destruct IH as (new & -> & Hirq & Hst & Hd & Hw & Hm & _ & Hto).
      exists ([B_mdelay MTDBRIDGE_TIMEOUT_SLICE;
               B_read MTDBRIDGE_STATUS_REG_ADDR] ++ new).
      split; [rewrite <- !app_assoc; reflexivity|].
      rewrite !reads_of_app, delay_of_app, mailbox_words_app, Hirq, Hm.
      cbn. unfold MTDBRIDGE_TIMEOUT_SLICE.
      repeat split; auto; try lia; intros Hc; try contradiction.
Qed.

(** One command, whatever the peripheral answers: the four registers are
    written once each, the IRQ register is read at most 501 times and the
    status register at most 501 times, at most a second is slept; a timeout
    of the first loop gives the no-response code without a read of the
    status register; the in-progress bit is reported only after 501 reads
    of the status register. *)
Lemma mtd_bridge_cmd_effort (offset len opcode : Z) (h : list BridgeAccess) :
  let r := mtd_bridge_cmd device offset len opcode h in
  ∃ new : list BridgeAccess,
    r.2 = h ++ new
    ∧ writes_to MTDBRIDGE_IRQ_REG_ADDR new = [MTDBRIDGE_IRQ_COMPLETE_BIT]
    ∧ writes_to MTDBRIDGE_ADDRESS_REG_ADDR new = [offset]
    ∧ writes_to MTDBRIDGE_LENGTH_REG_ADDR new = [len]
    ∧ writes_to MTDBRIDGE_COMMAND_REG_ADDR new = [opcode]
    ∧ mailbox_words new = []
    ∧ (reads_of MTDBRIDGE_IRQ_REG_ADDR new <= 501)%nat
    ∧ (reads_of MTDBRIDGE_STATUS_REG_ADDR new <= 501)%nat
    ∧ 0 <= delay_of new <= 1000
    ∧ (Z.land r.1 MTDBRIDGE_SR_OIP ≠ 0 →
       reads_of MTDBRIDGE_STATUS_REG_ADDR new = 501%nat
       ∧ 500 <= delay_of new)
    ∧ (reads_of MTDBRIDGE_STATUS_REG_ADDR new = O →
       r.1 = MTDBRIDGE_SR_NORESP
       ∧ reads_of MTDBRIDGE_IRQ_REG_ADDR new = 501%nat
       ∧ delay_of new = 500).
Proof.
  cbv zeta. unfold mtd_bridge_cmd, MTDBRIDGE_WRITE.
  change (Z.to_nat MTDBRIDGE_TIMEOUT_WAITS) with 500%nat.
  set (h4 := (((h ++ _) ++ _) ++ _) ++ _).
  destruct (mtd_bridge_cmd_poll_effort 500 h4)
    as (new1 & Hh1 & Hrc1 & Hirq1 & Hst1 & Hd1 & Hw1 & Hm1 & Hto1).
  destruct (mtd_bridge_cmd_poll device 500 h4) as [rc h5].
  cbn [fst snd] in *. subst h5.
  destruct Hrc1 as [-> | ->].
  - cbn [Z.eqb]. unfold MTDBRIDGE_READ.
    match goal with |- context [mtd_bridge_cmd_busy device 500 ?rc ?hh] =>
      destruct (mtd_bridge_cmd_busy_effort 500 rc hh)
        as (new2 & Hh2 & Hirq2 & Hst2 & Hd2 & Hw2 & Hm2 & _ & Hto2);
      destruct (mtd_bridge_cmd_busy device 500 rc hh) as [rc2 h6]
    end.
    cbn [fst snd] in *. subst h6 h4.
    eexists. rewrite <- !app_assoc. split; [reflexivity|].
    rewrite !writes_to_app, !reads_of_app, !delay_of_app, !mailbox_words_app,
      !Hw1, !Hw2, Hm1, Hm2, Hst1, Hirq2.
    cbn. repeat split; auto; try lia.
  - change (MTDBRIDGE_SR_NORESP =? 0) with false. cbv iota beta.
    rewrite mtd_bridge_cmd_busy_done by reflexivity.
    cbn [fst snd]. subst h4.
    eexists. rewrite <- !app_assoc. split; [reflexivity|].
    rewrite !writes_to_app, !reads_of_app, !delay_of_app, !mailbox_words_app,
      !Hw1, Hm1, Hst1.
    destruct (Hto1 eq_refl) as [Hirq Hdel].
    cbn. repeat split; auto; try lia;
      exfalso; match goal with Hc : _ ≠ _ |- _ => apply Hc; reflexivity end.
Qed.

(** X10: a command costs a bounded effort whatever the peripheral does: the
    address, length and command registers are written once each with the
    arguments, the IRQ register is read at most 501 times and the status
    register at most 501 times, and at most one second is slept. *)
Theorem mtd_bridge_cmd_bounded (offset len opcode : Z) (h : list BridgeAccess) :
  ∃ new : list BridgeAccess,
    (mtd_bridge_cmd device offset len opcode h).2 = h ++ new
    ∧ writes_to MTDBRIDGE_ADDRESS_REG_ADDR new = [offset]
    ∧ writes_to MTDBRIDGE_LENGTH_REG_ADDR new = [len]
    ∧ writes_to MTDBRIDGE_COMMAND_REG_ADDR new = [opcode]
    ∧ (reads_of MTDBRIDGE_IRQ_REG_ADDR new <= 501)%nat
    ∧ (reads_of MTDBRIDGE_STATUS_REG_ADDR new <= 501)%nat
    ∧ 0 <= delay_of new <= 1000.
Proof.
  destruct (mtd_bridge_cmd_effort offset len opcode h)
    as (new & Hh & _ & Ha & Hl & Hc & _ & Hirq & Hst & Hd & _).
  exists new. repeat split; auto; lia.
Qed.

(** X11: a peripheral that never raises the completion bit makes a command
    end with the no-response code after 501 reads of the IRQ register and
    500 milliseconds of sleep, the status register never being read. *)
Theorem mtd_bridge_cmd_no_response (offset len opcode : Z)
    (h : list BridgeAccess) :
  never_completes device →
  ∃ new : list BridgeAccess,
    mtd_bridge_cmd device offset len opcode h = (MTDBRIDGE_SR_NORESP, h ++ new)
    ∧ reads_of MTDBRIDGE_IRQ_REG_ADDR new = 501%nat
    ∧ reads_of MTDBRIDGE_STATUS_REG_ADDR new = O
    ∧ delay_of new = 500.
Proof.
  intros Hdead.
  assert (Hpoll : ∀ n h0, (mtd_bridge_cmd_poll device n h0).1 = MTDBRIDGE_SR_NORESP).
  { induction n as [|n IH]; intros h0.
    - rewrite mtd_bridge_cmd_poll_O, (Hdead h0). reflexivity.
    - rewrite mtd_bridge_cmd_poll_S, (Hdead h0). apply IH. }
  unfold mtd_bridge_cmd, MTDBRIDGE_WRITE.
  change (Z.to_nat MTDBRIDGE_TIMEOUT_WAITS) with 500%nat.
  set (h4 := (((h ++ _) ++ _) ++ _) ++ _).
  destruct (mtd_bridge_cmd_poll_effort 500 h4)
    as (new1 & Hh1 & _ & _ & Hst1 & _ & _ & _ & Hto1).
  specialize (Hpoll 500%nat h4).
  destruct (mtd_bridge_cmd_poll device 500 h4) as [rc h5].
  cbn [fst snd] in *. subst rc h5.
  destruct (Hto1 eq_refl) as [Hirq Hdel].
  change (MTDBRIDGE_SR_NORESP =? 0) with false. cbv iota beta.
  rewrite mtd_bridge_cmd_busy_done by reflexivity. subst h4.
  eexists. rewrite <- !app_assoc. split; [reflexivity|].
  rewrite !reads_of_app, !delay_of_app, Hst1, Hirq, Hdel. cbn.
  repeat split.
Qed.

(** X12: a command reports that the operation is still in progress only
    after the status register has been read 501 times and at least half a
    second has been slept. *)
Theorem mtd_bridge_cmd_in_progress (offset len opcode : Z)
    (h : list BridgeAccess) :
  Z.land (mtd_bridge_cmd device offset len opcode h).1 MTDBRIDGE_SR_OIP ≠ 0 →
  ∃ new : list BridgeAccess,
    (mtd_bridge_cmd device offset len opcode h).2 = h ++ new
    ∧ reads_of MTDBRIDGE_STATUS_REG_ADDR new = 501%nat
    ∧ 500 <= delay_of new.
Proof.
  intros Hoip.
  destruct (mtd_bridge_cmd_effort offset len opcode h)
    as (new & Hh & _ & _ & _ & _ & _ & _ & _ & _ & Hbusy & _).
  exists new. split; [exact Hh|]. apply Hbusy, Hoip.
Qed.

End Bridge_command.

Lemma mtd_bridge_cmd_no_response_witness :
  (mtd_bridge_cmd dead_bridge 0x260000 2048 MTDBRIDGE_OPCODE_WRITE []).1
  = MTDBRIDGE_SR_NORESP.
Proof.
  destruct (mtd_bridge_cmd_no_response dead_bridge 0x260000 2048
              MTDBRIDGE_OPCODE_WRITE [] (λ _, eq_refl)) as (new & -> & _).
  reflexivity.
Defined.

Lemma mtd_bridge_cmd_in_progress_witness :
  ∃ new : list BridgeAccess,
    (mtd_bridge_cmd busy_bridge 0 16 MTDBRIDGE_OPCODE_SE []).2 = [] ++ new
    ∧ reads_of MTDBRIDGE_STATUS_REG_ADDR new = 501%nat
    ∧ 500 <= delay_of new.
Proof.
  apply (mtd_bridge_cmd_in_progress busy_bridge 0 16 MTDBRIDGE_OPCODE_SE []).
  vm_compute. discriminate.
Defined.

(** ** Transfers in chunks *)

Lemma chunk_lengths_0 : chunk_lengths 0 = [].
Proof. reflexivity. Qed.

Lemma chunk_lengths_small (l : Z) :
  0 < l <= MTDBRIDGE_BUFFER_SIZE → chunk_lengths l = [l].
Proof.
  unfold chunk_lengths, MTDBRIDGE_BUFFER_SIZE. intros Hl.
  destruct (Z.eq_dec l 2048) as [->|Hne]; [reflexivity|].
  rewrite Z.div_small, Z.mod_small by lia. cbn.
  destruct (Z.eqb_spec l 0); [lia | reflexivity].
Qed.

Lemma chunk_lengths_big (l : Z) :
  MTDBRIDGE_BUFFER_SIZE < l →
  chunk_lengths l
  = MTDBRIDGE_BUFFER_SIZE :: chunk_lengths (l - MTDBRIDGE_BUFFER_SIZE).
Proof.
  unfold chunk_lengths, MTDBRIDGE_BUFFER_SIZE. intros Hl.
  assert (Hdiv : l / 2048 = (l - 2048) / 2048 + 1).
  { replace l with ((l - 2048) + 1 * 2048) at 1 by lia.
    apply Z.div_add. lia. }
  assert (Hmod : l mod 2048 = (l - 2048) mod 2048).
  { replace l with ((l - 2048) + 1 * 2048) at 1 by lia.
    apply Z.mod_add. lia. }
  assert (0 <= (l - 2048) / 2048) by (apply Z.div_pos; lia).
  rewrite Hdiv, Hmod, Z2Nat.inj_add by lia. rewrite Nat.add_comm. reflexivity.
Qed.

Lemma words_for_shiftr (l : Z) :
  Z.to_nat (Z.shiftr (l + 3) 2) = words_for l.
Proof. unfold words_for. rewrite Z.shiftr_div_pow2 by lia. reflexivity. Qed.

Lemma words_for_big (l : Z) :
  MTDBRIDGE_BUFFER_SIZE < l →
  words_for l
  = (words_for MTDBRIDGE_BUFFER_SIZE + words_for (l - MTDBRIDGE_BUFFER_SIZE))%nat.
Proof.
  unfold words_for, MTDBRIDGE_BUFFER_SIZE. intros Hl.
  assert (Hdiv : (l + 3) / 4 = (l - 2048 + 3) / 4 + 512).
  { replace (l + 3) with ((l - 2048 + 3) + 512 * 4) by lia.
    apply Z.div_add. lia. }
  assert (0 <= (l - 2048 + 3) / 4) by (apply Z.div_pos; lia).
  rewrite Hdiv, Z2Nat.inj_add by lia. rewrite Nat.add_comm. reflexivity.
Qed.

Lemma chunk_offsets_S (offset : Z) (k : nat) :
  is_uint32 offset →
  chunk_offsets offset (S k)
  = offset :: chunk_offsets (uint32 (offset + MTDBRIDGE_BUFFER_SIZE)) k.
Proof.
  intros Ho. unfold chunk_offsets. cbn [seq fmap list_fmap].
  rewrite Z.mul_0_r, Z.add_0_r, uint32_small by exact Ho. f_equal.
  rewrite <- fmap_S_seq, <- list_fmap_compose.
  apply list_fmap_ext. intros _ i _. cbn.
  unfold uint32. rewrite Zplus_mod_idemp_l. f_equal. lia.
Qed.

Section Bridge_transfers.
Variable device : list BridgeAccess → Z → Z.

(** A command on a peripheral that has completed whenever it is asked. *)
Lemma mtd_bridge_cmd_answered (status offset len opcode : Z)
    (h : list BridgeAccess) :
  answers_with device status →
  Z.land (int32 status) MTDBRIDGE_SR_OIP = 0 →
  mtd_bridge_cmd device offset len opcode h
  = (int32 status,
     h ++ [ B_write MTDBRIDGE_IRQ_REG_ADDR MTDBRIDGE_IRQ_COMPLETE_BIT;
            B_write MTDBRIDGE_ADDRESS_REG_ADDR offset;
            B_write MTDBRIDGE_LENGTH_REG_ADDR len;
            B_write MTDBRIDGE_COMMAND_REG_ADDR opcode;
            B_read MTDBRIDGE_IRQ_REG_ADDR;
            B_read MTDBRIDGE_STATUS_REG_ADDR ]).
Proof.
  intros [Hirq Hstatus] Hidle. unfold mtd_bridge_cmd, MTDBRIDGE_WRITE.
  change (Z.to_nat MTDBRIDGE_TIMEOUT_WAITS) with 500%nat.
  rewrite mtd_bridge_cmd_poll_S.
  match goal with |- context [Z.land (uint32 (device ?hh _)) _ =? 0] =>
    destruct (Z.eqb_spec (Z.land (uint32 (device hh MTDBRIDGE_IRQ_REG_ADDR))
                            MTDBRIDGE_IRQ_COMPLETE_BIT) 0) as [Hz|_];
      [exfalso; exact (Hirq hh Hz)|]
  end.
  cbn [Z.eqb]. unfold MTDBRIDGE_READ. rewrite Hstatus.
  rewrite mtd_bridge_cmd_busy_done by exact Hidle.
  rewrite <- !app_assoc. reflexivity.
Qed.

(** The words of a chunk on their way to the mailbox RAM. *)
Lemma copy_to_mailbox_spec (buf : nat → Z) (n : nat) :
  ∀ (buf_offset : Z) (word_ptr : nat) (h : list BridgeAccess),
    MTDBRIDGE_MAILBOX_RAM_ADDR <= buf_offset →
    ∃ new : list BridgeAccess,
      copy_to_mailbox n buf_offset buf word_ptr h = h ++ new
      ∧ (∀ reg, reg < MTDBRIDGE_MAILBOX_RAM_ADDR → writes_to reg new = [])
      ∧ mailbox_words new = buf <$> seq word_ptr n
      ∧ (∀ reg, reads_of reg new = O)
      ∧ delay_of new = 0.
Proof.
  induction n as [|n IH]; intros buf_offset word_ptr h Hoff.
  - exists []. cbn. rewrite app_nil_r. repeat split.
  - cbn [copy_to_mailbox]. unfold MTDBRIDGE_WRITE.
    destruct (IH (buf_offset + 4) (S word_ptr)
                (h ++ [B_write buf_offset (buf word_ptr)]))
      as (new & -> & Hw & Hm & Hr & Hd); [lia|].
    exists (B_write buf_offset (buf word_ptr) :: new).
    split; [rewrite <- app_assoc; reflexivity|].
    cbn [writes_to mailbox_words reads_of delay_of seq fmap list_fmap].
    destruct (Z.leb_spec MTDBRIDGE_MAILBOX_RAM_ADDR buf_offset); [|lia].
    rewrite Hm. repeat split; auto.
    intros reg Hreg. destruct (Z.eqb_spec buf_offset reg); [lia|].
    apply Hw, Hreg.
Qed.

(** The size of the next chunk (line 156). *)
Lemma next_len_cases (len_rem : Z) :
  0 < len_rem →
  let next_len :=
    if len_rem >? MTDBRIDGE_BUFFER_SIZE then MTDBRIDGE_BUFFER_SIZE else len_rem in
  0 < next_len <= MTDBRIDGE_BUFFER_SIZE
  ∧ next_len <= len_rem
  ∧ chunk_lengths len_rem = next_len :: chunk_lengths (len_rem - next_len)
  ∧ words_for len_rem
    = (words_for next_len + words_for (len_rem - next_len))%nat
  ∧ (next_len = MTDBRIDGE_BUFFER_SIZE ∨ len_rem - next_len = 0).
Proof.
  intros Hpos. cbv zeta.
  destruct (Z.gtb_spec len_rem MTDBRIDGE_BUFFER_SIZE) as [Hbig|Hsmall].
  - rewrite (chunk_lengths_big len_rem), (words_for_big len_rem) by lia.
    unfold MTDBRIDGE_BUFFER_SIZE in *. repeat split; auto; lia.
  - rewrite Z.sub_diag, chunk_lengths_0, (chunk_lengths_small len_rem) by lia.
    change (words_for 0) with O. rewrite Nat.add_0_r.
    unfold MTDBRIDGE_BUFFER_SIZE in *. repeat split; auto; lia.
Qed.

Lemma mtd_bridge_write_loop_done (fuel : nat) (rc offset len_rem : Z)
    (buf : nat → Z) (word_ptr : nat) (h : list BridgeAccess) :
  (rc =? 0) && (0 <? len_rem) = false →
  mtd_bridge_write_loop device fuel rc offset len_rem buf word_ptr h
  = Some (rc, h).
Proof.
  intros Hc. destruct fuel; cbn [mtd_bridge_write_loop]; rewrite Hc; reflexivity.
Qed.

Lemma mtd_bridge_write_loop_step (fuel : nat) (offset len_rem : Z)
    (buf : nat → Z) (word_ptr : nat) (h : list BridgeAccess) :
  0 < len_rem →
  let next_len :=
    if len_rem >? MTDBRIDGE_BUFFER_SIZE then MTDBRIDGE_BUFFER_SIZE else len_rem in
  let r :=
    mtd_bridge_cmd device offset next_len MTDBRIDGE_OPCODE_WRITE
      (copy_to_mailbox (words_for next_len) MTDBRIDGE_MAILBOX_RAM_ADDR buf
         word_ptr h) in
  mtd_bridge_write_loop device (S fuel) 0 offset len_rem buf word_ptr h
  = mtd_bridge_write_loop device fuel r.1 (uint32 (offset + next_len))
      (len_rem - next_len) buf (word_ptr + words_for next_len)%nat r.2.
Proof.
  intros Hpos. cbv zeta. cbn [mtd_bridge_write_loop].
  apply Z.ltb_lt in Hpos. rewrite Hpos. cbn [Z.eqb andb].
  rewrite words_for_shiftr.
  destruct (mtd_bridge_cmd device _ _ _ _). reflexivity.
Qed.

(** The loop of [mtd_bridge_write] on a peripheral that accepts every
    command. *)
Lemma mtd_bridge_write_loop_accepted (buf : nat → Z) (fuel : nat) :
  answers_with device 0 →
  ∀ (len_rem offset : Z) (word_ptr : nat) (h : list BridgeAccess),
    0 <= len_rem →
    (Z.to_nat len_rem <= fuel)%nat →
    is_uint32 offset →
    ∃ new : list BridgeAccess,
      mtd_bridge_write_loop device fuel 0 offset len_rem buf word_ptr h
      = Some (0, h ++ new)
      ∧ writes_to MTDBRIDGE_LENGTH_REG_ADDR new = chunk_lengths len_rem
      ∧ writes_to MTDBRIDGE_ADDRESS_REG_ADDR new
        = chunk_offsets offset (length (chunk_lengths len_rem))
      ∧ writes_to MTDBRIDGE_COMMAND_REG_ADDR new
        = replicate (length (chunk_lengths len_rem)) MTDBRIDGE_OPCODE_WRITE
      ∧ mailbox_words new = buf <$> seq word_ptr (words_for len_rem).
Proof.
  intros Hdev. induction fuel as [|fuel IH];
    intros len_rem offset word_ptr h Hlen Hfuel Hoff.
  - assert (len_rem = 0) as -> by lia.
    rewrite mtd_bridge_write_loop_done by reflexivity.
    exists []. rewrite app_nil_r. repeat split.
  - destruct (Z.eq_dec len_rem 0) as [->|Hne].
    + rewrite mtd_bridge_write_loop_done by reflexivity.
      exists []. rewrite app_nil_r. repeat split.
    + rewrite mtd_bridge_write_loop_step by lia.
      destruct (next_len_cases len_rem ltac:(lia))
        as (Hnext & Hle & Hchunks & Hwords & Hlast).
      set (next_len := if len_rem >? MTDBRIDGE_BUFFER_SIZE
                       then MTDBRIDGE_BUFFER_SIZE else len_rem) in *.
      destruct (copy_to_mailbox_spec buf (words_for next_len)
                  MTDBRIDGE_MAILBOX_RAM_ADDR word_ptr h ltac:(lia))
        as (new1 & -> & Hw1 & Hm1 & _ & _).
      rewrite (mtd_bridge_cmd_answered 0) by (exact Hdev || reflexivity).
      cbn [fst snd]. change (int32 0) with 0.
      destruct (IH (len_rem - next_len) (uint32 (offset + next_len))
                  (word_ptr + words_for next_len)%nat
                  ((h ++ new1)
                   ++ [ B_write MTDBRIDGE_IRQ_REG_ADDR MTDBRIDGE_IRQ_COMPLETE_BIT;
                        B_write MTDBRIDGE_ADDRESS_REG_ADDR offset;
                        B_write MTDBRIDGE_LENGTH_REG_ADDR next_len;
                        B_write MTDBRIDGE_COMMAND_REG_ADDR MTDBRIDGE_OPCODE_WRITE;
                        B_read MTDBRIDGE_IRQ_REG_ADDR;
                        B_read MTDBRIDGE_STATUS_REG_ADDR ]))
        as (new2 & -> & Hl2 & Ha2 & Hc2 & Hm2);
        [lia | lia | apply uint32_range |].
      eexists. split; [rewrite <- !app_assoc; reflexivity|].
      rewrite !writes_to_app, !mailbox_words_app, !Hw1, Hm1, Hl2, Ha2, Hc2, Hm2
        by (vm_compute; reflexivity).
      rewrite Hchunks, Hwords. cbn [length replicate].
      rewrite seq_app, fmap_app.
      repeat split.
      rewrite chunk_offsets_S by exact Hoff.
      change (writes_to MTDBRIDGE_ADDRESS_REG_ADDR _ ++ ?x) with (offset :: x).
      cbn [app]. f_equal.
      destruct Hlast as [-> | ->]; [reflexivity|].
      rewrite chunk_lengths_0. reflexivity.
Qed.

(** X13: on a peripheral that accepts every command, [mtd_bridge_write]
    returns 0 after cutting the transfer into chunks of 2048 bytes and a
    last shorter one: the lengths written are these chunks, the Flash
    offsets written advance by 2048 from [offset], every command is the
    write opcode, and the words sent through the mailbox RAM are the words
    of the buffer in order, as many as cover [len] bytes. *)
Theorem mtd_bridge_write_chunks (offset len : Z) (buf : nat → Z)
    (h : list BridgeAccess) :
  answers_with device 0 →
  0 <= len →
  is_uint32 offset →
  ∃ new : list BridgeAccess,
    mtd_bridge_write device offset len buf h = Some (0, h ++ new)
    ∧ writes_to MTDBRIDGE_LENGTH_REG_ADDR new = chunk_lengths len
    ∧ writes_to MTDBRIDGE_ADDRESS_REG_ADDR new
      = chunk_offsets offset (length (chunk_lengths len))
    ∧ writes_to MTDBRIDGE_COMMAND_REG_ADDR new
      = replicate (length (chunk_lengths len)) MTDBRIDGE_OPCODE_WRITE
    ∧ mailbox_words new = buf <$> seq 0 (words_for len).
Proof.
  intros Hdev Hlen Hoff. unfold mtd_bridge_write.
  apply mtd_bridge_write_loop_accepted; auto.
Qed.

(** The loop of [mtd_bridge_write] on any peripheral. *)
Lemma mtd_bridge_write_loop_any (buf : nat → Z) (fuel : nat) :
  ∀ (rc len_rem offset : Z) (word_ptr : nat) (h : list BridgeAccess),
    0 <= len_rem →
    (Z.to_nat len_rem <= fuel)%nat →
    ∃ (rc' : Z) (new : list BridgeAccess),
      mtd_bridge_write_loop device fuel rc offset len_rem buf word_ptr h
      = Some (rc', h ++ new)
      ∧ writes_to MTDBRIDGE_LENGTH_REG_ADDR new `prefix_of` chunk_lengths len_rem
      ∧ mailbox_words new `prefix_of` (buf <$> seq word_ptr (words_for len_rem))
      ∧ (rc' = 0 →
         writes_to MTDBRIDGE_LENGTH_REG_ADDR new = chunk_lengths len_rem
         ∧ mailbox_words new = buf <$> seq word_ptr (words_for len_rem))
      ∧ (rc ≠ 0 ∨ len_rem = 0 → rc' = rc ∧ new = []).
Proof.
  induction fuel as [|fuel IH]; intros rc len_rem offset word_ptr h Hlen Hfuel.
  - assert (len_rem = 0) as -> by lia.
    rewrite mtd_bridge_write_loop_done by apply andb_false_r.
    exists rc, []. rewrite app_nil_r.
    repeat split; auto; apply prefix_nil.
  - destruct (Z.eq_dec rc 0) as [->|Hrc].
    + destruct (Z.eq_dec len_rem 0) as [->|Hne].
      * rewrite mtd_bridge_write_loop_done by reflexivity.
        exists 0, []. rewrite app_nil_r.
        repeat split; auto; apply prefix_nil.
      * rewrite mtd_bridge_write_loop_step by lia.
        destruct (next_len_cases len_rem ltac:(lia))
          as (Hnext & Hle & Hchunks & Hwords & _).
        set (next_len := if len_rem >? MTDBRIDGE_BUFFER_SIZE
                         then MTDBRIDGE_BUFFER_SIZE else len_rem) in *.
        destruct (copy_to_mailbox_spec buf (words_for next_len)
                    MTDBRIDGE_MAILBOX_RAM_ADDR word_ptr h ltac:(lia))
          as (new1 & -> & Hw1 & Hm1 & _ & _).
        destruct (mtd_bridge_cmd_effort device offset next_len
                    MTDBRIDGE_OPCODE_WRITE (h ++ new1))
          as (newc & Hhc & _ & _ & Hlc & _ & Hmc & _).
        destruct (mtd_bridge_cmd device offset next_len MTDBRIDGE_OPCODE_WRITE
                    (h ++ new1)) as [rc1 hc].
        cbn [fst snd] in *. subst hc.
        destruct (IH rc1 (len_rem - next_len) (uint32 (offset + next_len))
                    (word_ptr + words_for next_len)%nat ((h ++ new1) ++ newc))
          as (rc2 & new2 & -> & Hpl & Hpm & Hfull & _); [lia | lia |].
        exists rc2, (new1 ++ newc ++ new2).
        split; [rewrite <- !app_assoc; reflexivity|].
        rewrite !writes_to_app, !mailbox_words_app, Hw1, Hm1, Hlc, Hmc
          by (vm_compute; reflexivity).
        rewrite Hchunks, Hwords, seq_app, fmap_app. cbn [app].
        split; [apply prefix_cons, Hpl|].
        split; [apply prefix_app, Hpm|].
        split.
        -- intros Hz. destruct (Hfull Hz) as [-> ->]. split; reflexivity.
        -- intros [Hc | Hc]; [contradiction | lia].
    + rewrite mtd_bridge_write_loop_done
        by (apply Z.eqb_neq in Hrc; rewrite Hrc; reflexivity).
      exists rc, []. rewrite app_nil_r.
      repeat split; auto; try apply prefix_nil; contradiction.
Qed.

(** X14: on any peripheral [mtd_bridge_write] comes to an end.  The lengths
    it has written are the first chunks of the transfer and the words it
    has sent are the first words of the buffer; when it returns 0 all the
    chunks and all the words have gone; for an empty transfer it returns 0
    without an access to the peripheral. *)
Theorem mtd_bridge_write_ends (offset len : Z) (buf : nat → Z)
    (h : list BridgeAccess) :
  0 <= len →
  ∃ (rc : Z) (new : list BridgeAccess),
    mtd_bridge_write device offset len buf h = Some (rc, h ++ new)
    ∧ writes_to MTDBRIDGE_LENGTH_REG_ADDR new `prefix_of` chunk_lengths len
    ∧ mailbox_words new `prefix_of` (buf <$> seq 0 (words_for len))
    ∧ (rc = 0 →
       writes_to MTDBRIDGE_LENGTH_REG_ADDR new = chunk_lengths len
       ∧ mailbox_words new = buf <$> seq 0 (words_for len))
    ∧ (len = 0 → rc = 0 ∧ new = []).
Proof.
  intros Hlen. unfold mtd_bridge_write.
  destruct (mtd_bridge_write_loop_any buf (Z.to_nat len) 0 len offset O h)
    as (rc & new & Hh & Hpl & Hpm & Hfull & Hzero); [lia | lia |].
  exists rc, new. split; [exact Hh|]. split; [exact Hpl|].
  split; [exact Hpm|]. split; [exact Hfull|].
  intros Hz. apply Hzero. right. exact Hz.
Qed.

(** X15: when the peripheral answers the first command with an error
    status, [mtd_bridge_write] returns that status after this one command:
    only the first chunk has been copied and offered, whatever is left. *)
Theorem mtd_bridge_write_first_error (status offset len : Z) (buf : nat → Z)
    (h : list BridgeAccess) :
  answers_with device status →
  Z.land (int32 status) MTDBRIDGE_SR_OIP = 0 →
  int32 status ≠ 0 →
  0 < len →
  ∃ new : list BridgeAccess,
    mtd_bridge_write device offset len buf h = Some (int32 status, h ++ new)
    ∧ writes_to MTDBRIDGE_COMMAND_REG_ADDR new = [MTDBRIDGE_OPCODE_WRITE]
    ∧ writes_to MTDBRIDGE_LENGTH_REG_ADDR new
      = [Z.min len MTDBRIDGE_BUFFER_SIZE]
    ∧ mailbox_words new
      = buf <$> seq 0 (words_for (Z.min len MTDBRIDGE_BUFFER_SIZE)).
Proof.
  intros Hdev Hidle Herr Hlen. unfold mtd_bridge_write.
  destruct (Z.to_nat len) as [|fuel] eqn:Hfuel; [lia|].
  rewrite mtd_bridge_write_loop_step by lia.
  assert (Hmin : (if len >? MTDBRIDGE_BUFFER_SIZE then MTDBRIDGE_BUFFER_SIZE
                  else len) = Z.min len MTDBRIDGE_BUFFER_SIZE).
  { destruct (Z.gtb_spec len MTDBRIDGE_BUFFER_SIZE); lia. }
  rewrite Hmin. set (next_len := Z.min len MTDBRIDGE_BUFFER_SIZE).
  destruct (copy_to_mailbox_spec buf (words_for next_len)
              MTDBRIDGE_MAILBOX_RAM_ADDR O h ltac:(lia))
    as (new1 & -> & Hw1 & Hm1 & _ & _).
  rewrite (mtd_bridge_cmd_answered status) by assumption.
  cbn [fst snd].
  rewrite mtd_bridge_write_loop_done
    by (apply Z.eqb_neq in Herr; rewrite Herr; reflexivity).
  eexists. split; [rewrite <- !app_assoc; reflexivity|].
  rewrite !writes_to_app, !mailbox_words_app, !Hw1, Hm1
    by (vm_compute; reflexivity).
  cbn. rewrite app_nil_r. repeat split.
Qed.

End Bridge_transfers.

Lemma mtd_bridge_write_chunks_witness :
  ∃ new : list BridgeAccess,
    mtd_bridge_write ideal_bridge 0x260000 5000 (λ i, Z.of_nat i) []
    = Some (0, [] ++ new)
    ∧ writes_to MTDBRIDGE_LENGTH_REG_ADDR new = chunk_lengths 5000
    ∧ writes_to MTDBRIDGE_ADDRESS_REG_ADDR new
      = chunk_offsets 0x260000 (length (chunk_lengths 5000))
    ∧ writes_to MTDBRIDGE_COMMAND_REG_ADDR new
      = replicate (length (chunk_lengths 5000)) MTDBRIDGE_OPCODE_WRITE
    ∧ mailbox_words new = (λ i, Z.of_nat i) <$> seq 0 (words_for 5000).
Proof.
  apply (mtd_bridge_write_chunks ideal_bridge 0x260000 5000 (λ i, Z.of_nat i) []).
  - split; intros h; [discriminate | reflexivity].
  - lia.
  - unfold is_uint32. lia.
Defined.

Lemma mtd_bridge_write_ends_witness :
  ∃ (rc : Z) (new : list BridgeAccess),
    mtd_bridge_write dead_bridge 0 5000 (λ i, Z.of_nat i) []
    = Some (rc, [] ++ new)
    ∧ writes_to MTDBRIDGE_LENGTH_REG_ADDR new `prefix_of` chunk_lengths 5000
    ∧ mailbox_words new
      `prefix_of` ((λ i, Z.of_nat i) <$> seq 0 (words_for 5000))
    ∧ (rc = 0 →
       writes_to MTDBRIDGE_LENGTH_REG_ADDR new = chunk_lengths 5000
       ∧ mailbox_words new = (λ i, Z.of_nat i) <$> seq 0 (words_for 5000))
    ∧ (5000 = 0 → rc = 0 ∧ new = []).
Proof.
  apply (mtd_bridge_write_ends dead_bridge 0 5000 (λ i, Z.of_nat i) []). lia.
Defined.

Lemma mtd_bridge_write_first_error_witness :
  ∃ new : list BridgeAccess,
    mtd_bridge_write readonly_bridge 0 5000 (λ i, Z.of_nat i) []
    = Some (int32 0x40, [] ++ new)
    ∧ writes_to MTDBRIDGE_COMMAND_REG_ADDR new = [MTDBRIDGE_OPCODE_WRITE]
    ∧ writes_to MTDBRIDGE_LENGTH_REG_ADDR new
      = [Z.min 5000 MTDBRIDGE_BUFFER_SIZE]
    ∧ mailbox_words new
      = (λ i, Z.of_nat i) <$> seq 0 (words_for (Z.min 5000 MTDBRIDGE_BUFFER_SIZE)).
Proof.
  apply (mtd_bridge_write_first_error readonly_bridge 0x40 0 5000
           (λ i, Z.of_nat i) []).
  - split; intros h; [discriminate | reflexivity].
  - reflexivity.
  - discriminate.
  - lia.
Defined.

Section Bridge_read.
Variable device : list BridgeAccess → Z → Z.


Lemma mtd_bridge_read_loop_done (fuel : nat) (rc offset len_rem : Z)
    (word_ptr : nat) (dst : gmap nat Z) (h : list BridgeAccess) :
  (rc =? 0) && (0 <? len_rem) = false →
  mtd_bridge_read_loop device fuel rc offset len_rem word_ptr dst h
  = Some (rc, dst, h).
Proof.
  intros Hc. destruct fuel; cbn [mtd_bridge_read_loop]; rewrite Hc; reflexivity.
Qed.

Lemma mtd_bridge_read_loop_step (fuel : nat) (offset len_rem : Z)
    (word_ptr : nat) (dst : gmap nat Z) (h : list BridgeAccess) :
  0 < len_rem →
  let next_len :=
    if len_rem >? MTDBRIDGE_BUFFER_SIZE then MTDBRIDGE_BUFFER_SIZE else len_rem in
  let c := mtd_bridge_cmd device offset next_len MTDBRIDGE_OPCODE_READ h in
  let m :=
    copy_from_mailbox device (words_for next_len) MTDBRIDGE_MAILBOX_RAM_ADDR
      word_ptr dst c.2 in
  mtd_bridge_read_loop device (S fuel) 0 offset len_rem word_ptr dst h
  = if c.1 =? 0 then
      mtd_bridge_read_loop device fuel c.1 (uint32 (offset + next_len))
        (len_rem - next_len) (word_ptr + words_for next_len)%nat m.1 m.2
    else
      mtd_bridge_read_loop device fuel c.1 (uint32 (offset + next_len))
        (len_rem - next_len) word_ptr dst c.2.
Proof.
  intros Hpos. cbv zeta. cbn [mtd_bridge_read_loop].
  apply Z.ltb_lt in Hpos. rewrite Hpos. cbn [Z.eqb andb].
  rewrite words_for_shiftr.
  destruct (mtd_bridge_cmd device _ _ _ _) as [rc1 h1]. cbn [fst snd].
  destruct (rc1 =? 0); [|reflexivity].
  destruct (copy_from_mailbox device _ _ _ _ _). reflexivity.
Qed.



(** X17: when the peripheral answers the first command with an error
    status, [mtd_bridge_read] returns that status after this one command,
    reads nothing from the mailbox RAM and leaves the destination as it
    was. *)
Theorem mtd_bridge_read_first_error (status offset len : Z)
    (dst : gmap nat Z) (h : list BridgeAccess) :
  answers_with device status →
  Z.land (int32 status) MTDBRIDGE_SR_OIP = 0 →
  int32 status ≠ 0 →
  0 < len →
  mtd_bridge_read device offset len dst h
  = Some (int32 status, dst,
          h ++ [ B_write MTDBRIDGE_IRQ_REG_ADDR MTDBRIDGE_IRQ_COMPLETE_BIT;
                 B_write MTDBRIDGE_ADDRESS_REG_ADDR offset;
                 B_write MTDBRIDGE_LENGTH_REG_ADDR
                   (Z.min len MTDBRIDGE_BUFFER_SIZE);
                 B_write MTDBRIDGE_COMMAND_REG_ADDR MTDBRIDGE_OPCODE_READ;
                 B_read MTDBRIDGE_IRQ_REG_ADDR;
                 B_read MTDBRIDGE_STATUS_REG_ADDR ]).
Proof.
  intros Hdev Hidle Herr Hlen. unfold mtd_bridge_read.
  destruct (Z.to_nat len) as [|fuel] eqn:Hfuel; [lia|].
  rewrite mtd_bridge_read_loop_step by lia.
  assert (Hmin : (if len >? MTDBRIDGE_BUFFER_SIZE then MTDBRIDGE_BUFFER_SIZE
                  else len) = Z.min len MTDBRIDGE_BUFFER_SIZE).
  { destruct (Z.gtb_spec len MTDBRIDGE_BUFFER_SIZE); lia. }
  rewrite Hmin, (mtd_bridge_cmd_answered device status) by assumption.
  cbn [fst snd]. apply Z.eqb_neq in Herr. rewrite Herr.
  apply mtd_bridge_read_loop_done. rewrite Herr. reflexivity.
Qed.

End Bridge_read.


Lemma mtd_bridge_read_first_error_witness :
  mtd_bridge_read readonly_bridge 0 5000 ∅ []
  = Some (int32 0x40, ∅,
          [] ++ [ B_write MTDBRIDGE_IRQ_REG_ADDR MTDBRIDGE_IRQ_COMPLETE_BIT;
                  B_write MTDBRIDGE_ADDRESS_REG_ADDR 0;
                  B_write MTDBRIDGE_LENGTH_REG_ADDR
                    (Z.min 5000 MTDBRIDGE_BUFFER_SIZE);
                  B_write MTDBRIDGE_COMMAND_REG_ADDR MTDBRIDGE_OPCODE_READ;
                  B_read MTDBRIDGE_IRQ_REG_ADDR;
                  B_read MTDBRIDGE_STATUS_REG_ADDR ]).
Proof.
  apply (mtd_bridge_read_first_error readonly_bridge 0x40 0 5000 ∅ []).
  - split; intros h; [discriminate | reflexivity].
  - reflexivity.
  - discriminate.
  - lia.
Defined.

(** * The boot sequence as a whole *)

Section Boot_returns.
Context `{Platform}.

(** X18: when [CheckFirmwareUpdate] returns, it returns 0 or 1, the status
    word was not the fallback magic and no remain-in-bootloader flag is
    set; since the probe it has made at most four mailbox reads, each
    answered or slept on, and it has neither run the executor nor raised a
    notification. *)
Theorem CheckFirmwareUpdate_returns (fsl_word rv : Z)
    (inbox : list (option RequestMessageBuffer_t)) (g g' : Globals) :
  CheckFirmwareUpdate fsl_word inbox g = Returns rv g' →
  (rv = 0 ∨ rv = 1)
  ∧ uint16 fsl_word ≠ GENERAL5_MAGIC
  ∧ truthy (firmwareUpdate g') = false
  ∧ (rv = 1 ↔ truthy (bootDelay g') = true)
  ∧ ∃ new : list ExternalCall,
      trace g' = trace (CheckFirmwareUpdate_probe g) ++ new
      ∧ (length (statuses new) + sleeps new <= 4)%nat
      ∧ executions new = O
      ∧ notifications new = O.
Proof.
  unfold CheckFirmwareUpdate.
  destruct (CheckFirmwareUpdate_poll_trace 4 inbox (CheckFirmwareUpdate_probe g))
    as (new & Htr & Hn & _ & Hex & Hno & _).
  destruct (CheckFirmwareUpdate_poll 4 inbox (CheckFirmwareUpdate_probe g))
    as [inbox1 g2].
  cbn [fst snd] in *. unfold CheckFirmwareUpdate_decide.
  destruct (Z.eqb_spec (uint16 fsl_word) GENERAL5_MAGIC) as [Hmagic|Hmagic].
  - cbn. destruct (DoFirmwareUpdate inbox1 g2); discriminate.
  - destruct (truthy (firmwareUpdate g2)) eqn:Hf.
    + cbn. destruct (DoFirmwareUpdate inbox1 g2); discriminate.
    + destruct (truthy (bootDelay g2)) eqn:Hb; cbn; intros Hret;
        injection Hret as <- <-; rewrite ?Hf, ?Hb;
        (split; [auto|]); (split; [exact Hmagic|]); (split; [reflexivity|]);
        (split; [split; congruence|]);
        exists new; repeat split; assumption.
Qed.

End Boot_returns.

Lemma CheckFirmwareUpdate_returns_witness :
  truthy
    (firmwareUpdate
       (outcome_globals
          (@CheckFirmwareUpdate bench 0
             [ None; Some (mkRequest k_CC_FirmwareUpdate Op_requestBootDelay) ]
             initial_globals)))
  = false.
Proof.
  refine (proj1 (proj2 (proj2
    (@CheckFirmwareUpdate_returns bench 0 1
       [ None; Some (mkRequest k_CC_FirmwareUpdate Op_requestBootDelay) ]
       initial_globals _ _)))).
  vm_compute. reflexivity.
Defined.
